(** * lottie-interactivity: the action-resolution and playback-transition engine

    A shallow embedding of [src/main.js] (class [LottieInteractivity]) and the
    properties of its specification.

    JavaScript numbers are IEEE 754 binary64 values; they are modelled by
    Rocq's primitive floats, whose arithmetic is the same binary64 arithmetic
    (round to nearest, ties to even).  [Math.ceil] and [Number.prototype.toString]
    are written out after ECMA-262. *)

From Stdlib Require Import Floats ZArith QArith Qround List String Ascii Bool DecimalString Lia.
Import ListNotations.

Set Warnings "-inexact-float".

(* ===================================================================== *)
(** ** JavaScript numbers *)
(* ===================================================================== *)

Module JS.

Local Open Scope string_scope.

Definition number := float.

(** The relational operators of the source; every comparison with NaN is
    false. *)
Definition lt (x y : number) : bool := PrimFloat.ltb x y.
Definition gt (x y : number) : bool := PrimFloat.ltb y x.
Definition le (x y : number) : bool := PrimFloat.leb x y.
Definition ge (x y : number) : bool := PrimFloat.leb y x.

(** Integers below 2^53 are binary64 values. *)
Definition of_Z (z : Z) : number :=
  if (z <? 0)%Z then PrimFloat.opp (PrimFloat.of_uint63 (Uint63.of_Z (- z)))
  else PrimFloat.of_uint63 (Uint63.of_Z z).

(** [Math.ceil]: NaN, the infinities and the zeros are returned as they
    are; a finite [m * 2^e] with [e >= 0] is an integer already; otherwise
    the integer part of the magnitude is [m / 2^(-e)], rounded up for a
    positive argument and kept for a negative one ([Math.ceil(-0.5)] is
    [-0]). *)
Definition Math_ceil (x : number) : number :=
  match Prim2SF x with
  | S754_finite s m e =>
      if (0 <=? e)%Z then x
      else
        let d := (2 ^ (- e))%Z in
        let q := (Z.pos m / d)%Z in
        let r := (Z.pos m mod d)%Z in
        if s then PrimFloat.opp (of_Z q)
        else of_Z (if (r =? 0)%Z then q else (q + 1)%Z)
  | _ => x
  end.

(** *** Number::toString (radix 10) *)

Definition dec (z : Z) : string := NilZero.string_of_uint (N.to_uint (Z.to_N z)).

Fixpoint zeros (n : nat) : string :=
  match n with
  | O => EmptyString
  | S n' => String "0"%char (zeros n')
  end.

Definition pow10 (n : Z) : Q := Qpower (10 # 1) n.
Definition pow2 (n : Z) : Q := Qpower (2 # 1) n.

(** The decimal exponent [n] of a positive [m * 2^e]:
    [10^(n-1) <= m * 2^e < 10^n]. *)
Definition decimal_exponent (m : positive) (e : Z) : Z :=
  let x := (inject_Z (Z.pos m) * pow2 e)%Q in
  if Qle_bool 1%Q x then Z.of_nat (String.length (dec (Qfloor x)))
  else (1 - Z.of_nat (String.length (dec (Qfloor (/ x)))))%Z.

(** The reals that round to [m * 2^e]: the interval between the midpoints
    to its two neighbours, closed when [m] is even. *)
Definition rounds_to (m : positive) (e : Z) (v : Q) : bool :=
  let x := (inject_Z (Z.pos m) * pow2 e)%Q in
  let up := pow2 (e - 1) in
  let down := if ((Z.pos m =? 2 ^ 52) && (-1074 <? e))%Z then pow2 (e - 2) else pow2 (e - 1) in
  let lo := (x - down)%Q in
  let hi := (x + up)%Q in
  if Z.even (Z.pos m)
  then Qle_bool lo v && Qle_bool v hi
  else negb (Qle_bool v lo) && negb (Qle_bool hi v).

(** The digits [s] (an integer of [k] digits, or [10^k]) with
    [s * 10^(n-k)] rounding to [m * 2^e]; of two such the closer one, the
    even one on a tie. *)
Definition candidate (m : positive) (e n k : Z) : option Z :=
  let x := (inject_Z (Z.pos m) * pow2 e)%Q in
  let p := pow10 (n - k) in
  let a := Qfloor (x / p) in
  let va := (inject_Z a * p)%Q in
  let vb := (inject_Z (a + 1) * p)%Q in
  let oka := (10 ^ (k - 1) <=? a)%Z && rounds_to m e va in
  let okb := rounds_to m e vb in
  match oka, okb with
  | true, true =>
      let da := (x - va)%Q in
      let db := (vb - x)%Q in
      if Qeq_bool da db then Some (if Z.even a then a else (a + 1)%Z)
      else if Qle_bool da db then Some a else Some (a + 1)%Z
  | true, false => Some a
  | false, true => Some (a + 1)%Z
  | false, false => None
  end.

(** The least [k] with a candidate, tried from [k] upwards; seventeen
    digits always suffice for a binary64 value. *)
Fixpoint shortest (fuel : nat) (m : positive) (e n k : Z) : Z * Z :=
  match fuel with
  | O => (Qfloor (inject_Z (Z.pos m) * pow2 e / pow10 (n - k)), k)
  | S fuel' =>
      match candidate m e n k with
      | Some s => (s, k)
      | None => shortest fuel' m e n (k + 1)%Z
      end
  end.

Definition head_tail (s : string) : string * string :=
  match s with
  | EmptyString => (EmptyString, EmptyString)
  | String c r => (String c EmptyString, r)
  end.

(** The four layouts of Number::toString for digits [ds] ([k] of them) and
    decimal exponent [n]. *)
Definition layout (ds : string) (n : Z) : string :=
  let k := Z.of_nat (String.length ds) in
  if ((k <=? n) && (n <=? 21))%Z then ds ++ zeros (Z.to_nat (n - k))
  else if ((0 <? n) && (n <=? 21))%Z then
    substring 0 (Z.to_nat n) ds ++ "." ++ substring (Z.to_nat n) (Z.to_nat (k - n)) ds
  else if ((-6 <? n) && (n <=? 0))%Z then "0." ++ zeros (Z.to_nat (- n)) ++ ds
  else
    let ex := (n - 1)%Z in
    let sign := if (ex <? 0)%Z then "-" else "+" in
    let (d1, rest) := head_tail ds in
    (if (k =? 1)%Z then ds else d1 ++ "." ++ rest) ++ "e" ++ sign ++ dec (Z.abs ex).

Definition finite_toString (m : positive) (e : Z) : string :=
  let n := decimal_exponent m e in
  let (s, k) := shortest 17 m e n 1 in
  if (s =? 10 ^ k)%Z then layout "1" (n + 1) else layout (dec s) n.

Definition Number_toString (x : number) : string :=
  match Prim2SF x with
  | S754_nan => "NaN"
  | S754_zero _ => "0"
  | S754_infinity false => "Infinity"
  | S754_infinity true => "-Infinity"
  | S754_finite false m e => finite_toString m e
  | S754_finite true m e => "-" ++ finite_toString m e
  end.

End JS.

Local Open Scope float_scope.
Local Open Scope string_scope.

(* ===================================================================== *)
(** ** The host page: elements, the document, the animation item *)
(* ===================================================================== *)

(** A DOM element as the source looks at it: its [nodeName], and whether
    it is the lottie-player web component.  [component = None] is a plain
    element, with neither [getLottie] nor [seek]; [component = Some loaded]
    is the component, whose [getLottie()] returns the animation item once
    it is loaded and [undefined] before, and which has [seek]. *)
Record Element := {
  nodeName : string;
  component : option bool
}.

(** A reference to an element as a JavaScript value. *)
Inductive ElementRef :=
| RUndefined
| RNull
| RElement (e : Element).

(** [document.querySelector]: a [SyntaxError] on an invalid selector,
    [null] when nothing matches, the first match otherwise. *)
Inductive Query :=
| Invalid
| NoMatch
| Match (e : Element).

Definition Document := string -> Query.

(** An object that is not lottie-web's animation item, as the class
    meets it: whether it has a [constructor] at all (an object made by
    [Object.create(null)] has none), and which of the player's methods it
    has.  The class never asks what a player is; it calls what is
    there. *)
Record ForeignObject := {
  has_constructor : bool;
  has_playSegments : bool;
  has_resetSegments : bool;
  has_stop : bool;
  has_play : bool;
  has_goToAndStop : bool
}.

(** The values the [player] option and [this.player] can hold.  The page
    has one object in the part of the player, whose properties are the
    [Player.AnimationItem] of the page: [PAnimationItem] is that object
    when it is lottie-web's (its constructor is named [AnimationItem], and
    it has every method), [PObject o] when it is any other ordinary
    object, an element with methods of its own among them.  [PElement e]
    is an element with none of the player's methods. *)
Inductive PlayerValue :=
| PUndefined
| PNull
| PBoolean (b : bool)
| PNumber (x : JS.number)
| PString (s : string)
| PAnimationItem
| PElement (e : Element)
| PObject (o : ForeignObject).

(** The [container] option: absent, a selector or an element. *)
Inductive ContainerValue :=
| CUndefined
| CString (s : string)
| CElement (e : Element).

(** ToBoolean. *)
Definition truthy (v : PlayerValue) : bool :=
  match v with
  | PUndefined | PNull => false
  | PBoolean b => b
  | PNumber x => negb (PrimFloat.eqb x 0 || PrimFloat.is_nan x)
  | PString s => negb (s =? "")
  | PAnimationItem | PElement _ | PObject _ => true
  end.

Definition ref_truthy (r : ElementRef) : bool :=
  match r with
  | RElement _ => true
  | _ => false
  end.

(** What the source throws or lets through. *)
Inductive Exception :=
| InvalidPlayer   (* new Error('[lottieInteractivity]: Specified player is invalid.') *)
| TypeError
| SyntaxError.

Inductive Completion (A : Type) :=
| Normal (a : A)
| Throw (e : Exception).
Arguments Normal {A} a.
Arguments Throw {A} e.

(** An action descriptor.  [frames] is absent ([None]) on the pointer
    actions, which do not use it. *)
Module Action.
Record t := {
  start : JS.number;
  end_ : JS.number;
  type : string;
  frames : option (list JS.number)
}.
End Action.

(** The animation item, the external engine this class drives. *)
Module Player.

(** What the class does to the player, in the order it does it: the
    assignment [player.loop = value], the methods of the animation item,
    and [seek] of the lottie-player element that wraps it. *)
Inductive Call :=
| set_loop (value : bool)
| playSegments (frames : option (list JS.number)) (forceFlag : option bool)
| resetSegments
| stop
| play
| goToAndStop (value : option JS.number) (isFrame : option bool)
| seek (percentageString : string).

(** The properties of the animation item the source reads or writes. *)
Record AnimationItem := {
  isPaused : bool;
  loop : bool;
  totalFrames : JS.number;
  wrapper : ElementRef
}.

Definition with_loop (b : bool) (p : AnimationItem) : AnimationItem :=
  {| isPaused := isPaused p; loop := b; totalFrames := totalFrames p; wrapper := wrapper p |}.

End Player.

(** The engine is not part of this repository.  What a method call does
    to the item's properties, and whether it throws, is a parameter of
    the model: [react c item] is the completion of the call [c] and the
    item after it. *)
Class Engine := react : Player.Call -> Player.AnimationItem -> Completion unit * Player.AnimationItem.

(** The mutable part of the page a handler acts on: the animation item,
    and the trace of what the class has done to the player so far, oldest
    first. *)
Record Page := {
  item : Player.AnimationItem;
  trace : list Player.Call
}.

(** [getBoundingClientRect()]. *)
Record DOMRect := {
  top : JS.number;
  bottom : JS.number;
  left : JS.number;
  right : JS.number;
  width : JS.number;
  height : JS.number
}.

(** An element seen from the offset walk: [Root] has no [offsetParent];
    [Child] has its two offsets and the parent they are relative to. *)
Inductive OffsetNode :=
| Root
| Child (offsetLeft offsetTop : JS.number) (offsetParent : OffsetNode).

Record MouseEvent := {
  pageX : JS.number;
  pageY : JS.number
}.

(** What a handler reads from the page when an event fires: the viewport
    height, the container's box and offsets, and for the branch without
    an event argument [window.event] and the body's scroll offsets. *)
Record Env := {
  innerHeight : JS.number;
  rect : DOMRect;
  offsets : OffsetNode;
  window_event : option (JS.number * JS.number);
  body_scrollLeft : JS.number;
  body_scrollTop : JS.number
}.

(* ===================================================================== *)
(** ** Statements that mutate the page and may throw *)
(* ===================================================================== *)

Definition M (A : Type) := Page -> Completion A * Page.

Definition ret {A} (a : A) : M A := fun pg => (Normal a, pg).

Definition bind {A B} (m : M A) (k : A -> M B) : M B :=
  fun pg =>
    match m pg with
    | (Normal a, pg') => k a pg'
    | (Throw e, pg') => (Throw e, pg')
    end.

Definition throw {A} (e : Exception) : M A := fun pg => (Throw e, pg).

Definition lift {A} (c : Completion A) : M A := fun pg => (c, pg).

(** [try { body } catch (e) { }]: whatever the body did before it threw
    stays done. *)
Definition try_catch (body : M unit) : M unit :=
  fun pg =>
    match body pg with
    | (Normal _, pg') => (Normal tt, pg')
    | (Throw _, pg') => (Normal tt, pg')
    end.

Notation "x <- m ;; k" := (bind m (fun x => k))
  (at level 61, m at next level, right associativity).
Notation "m ;;; k" := (bind m (fun _ => k))
  (at level 61, right associativity).

(** [this.player.loop = true].  Class bodies are strict code: creating a
    property on a primitive throws.  On the player object, the animation
    item or another object, the write sets its [loop]; on an element
    without the player's methods it makes a property no part of [Page]. *)
Definition player_set_loop (p : PlayerValue) : M unit :=
  match p with
  | PAnimationItem | PObject _ =>
      fun pg => (Normal tt, {| item := Player.with_loop true (item pg);
                               trace := trace pg ++ [Player.set_loop true] |})
  | PElement _ => ret tt
  | PUndefined | PNull | PBoolean _ | PNumber _ | PString _ => throw TypeError
  end.

(** [this.player.isPaused === true]: the property of the player object;
    a primitive or a plain element has none, and [undefined === true] is
    false. *)
Definition player_isPaused (p : PlayerValue) : M bool :=
  match p with
  | PAnimationItem | PObject _ => fun pg => (Normal (Player.isPaused (item pg)), pg)
  | PUndefined | PNull => throw TypeError
  | _ => ret false
  end.

(** [this.player.totalFrames] as an operand of [*]. *)
Definition player_totalFrames (p : PlayerValue) : M JS.number :=
  match p with
  | PAnimationItem | PObject _ => fun pg => (Normal (Player.totalFrames (item pg)), pg)
  | PUndefined | PNull => throw TypeError
  | _ => ret nan
  end.

(** Whether a foreign object has the method a call names. *)
Definition has_method (o : ForeignObject) (c : Player.Call) : bool :=
  match c with
  | Player.playSegments _ _ => has_playSegments o
  | Player.resetSegments => has_resetSegments o
  | Player.stop => has_stop o
  | Player.play => has_play o
  | Player.goToAndStop _ _ => has_goToAndStop o
  | Player.set_loop _ | Player.seek _ => false
  end.

(** The engine receiving a call: the call joins the trace, and the
    engine's reaction decides the completion and the item. *)
Definition engine_call {E : Engine} (c : Player.Call) : M unit :=
  fun pg =>
    let (completion, item') := react c (item pg) in
    (completion, {| item := item'; trace := trace pg ++ [c] |}).

(** A method call on [this.player]: the animation item has every
    method, another object the ones it has, and calling what is not there
    throws. *)
Definition player_call {E : Engine} (p : PlayerValue) (c : Player.Call) : M unit :=
  match p with
  | PAnimationItem => engine_call c
  | PObject o => if has_method o c then engine_call c else throw TypeError
  | _ => throw TypeError
  end.

(** [this.playerInstance.seek(s)]: only the lottie-player component has
    the method. *)
Definition playerInstance_seek {E : Engine} (r : ElementRef) (s : string) : M unit :=
  match r with
  | RElement e =>
      match component e with
      | Some _ => engine_call (Player.seek s)
      | None => throw TypeError
      end
  | _ => throw TypeError
  end.

(* ===================================================================== *)
(** ** class LottieInteractivity *)
(* ===================================================================== *)

Definition LOTTIE_PLAYER_NODE : string := "LOTTIE-PLAYER".

(** The constructor's argument.  [actions] and [mode] are [None] when the
    property is absent.  [playerInstance] is taken apart by the parameter
    pattern and never read. *)
Record Options := {
  opt_actions : option (list Action.t);
  opt_container : ContainerValue;
  opt_mode : option string;
  opt_player : PlayerValue;
  opt_playerInstance : ElementRef
}.

Definition DEFAULT_OPTIONS : Options :=
  {| opt_actions := None;
     opt_container := CUndefined;
     opt_mode := None;
     opt_player := PString "lottie-player";
     opt_playerInstance := RUndefined |}.

(** The fields of an instance ([this.options], the rest of the argument,
    is never read and is left out). *)
Record LottieInteractivity := {
  player : PlayerValue;
  container : ElementRef;
  mode : option string;
  actions : option (list Action.t);
  playerInstance : ElementRef
}.

(** [elem.getLottie()]. *)
Definition getLottie (e : Element) : Completion PlayerValue :=
  match component e with
  | Some true => Normal PAnimationItem
  | Some false => Normal PUndefined
  | None => Throw TypeError
  end.

Definition querySelector (document : Document) (s : string) : Completion ElementRef :=
  match document s with
  | Invalid => Throw SyntaxError
  | NoMatch => Normal RNull
  | Match e => Normal (RElement e)
  end.

Definition cbind {A B} (c : Completion A) (k : A -> Completion B) : Completion B :=
  match c with
  | Normal a => k a
  | Throw e => Throw e
  end.

(** [typeof player === 'object' && player.constructor.name === 'AnimationItem'];
    [typeof null] is ['object'] and [null.constructor] throws, and so does
    [undefined.name] on an object without a constructor. *)
Definition is_AnimationItem (p : PlayerValue) : Completion bool :=
  match p with
  | PNull => Throw TypeError
  | PAnimationItem => Normal true
  | PObject o => if has_constructor o then Normal false else Throw TypeError
  | _ => Normal false
  end.

(** Lines 13-28: the resolved [player] and the value of
    [this.playerInstance]. *)
Definition resolve_player (document : Document) (p : PlayerValue)
  : Completion (PlayerValue * ElementRef) :=
  cbind (is_AnimationItem p) (fun direct =>
  if direct then Normal (p, RUndefined)
  else
    cbind
      match p with
      | PString s =>
          cbind (querySelector document s) (fun elem =>
          match elem with
          | RElement e =>
              if nodeName e =? LOTTIE_PLAYER_NODE
              then cbind (getLottie e) (fun l => Normal (l, elem))
              else Normal (p, elem)
          | _ => Normal (p, elem)
          end)
      | PElement e =>
          if nodeName e =? LOTTIE_PLAYER_NODE
          then cbind (getLottie e) (fun l => Normal (l, RUndefined))
          else Normal (p, RUndefined)
      | _ => Normal (p, RUndefined)
      end
      (fun r => if negb (truthy (fst r)) then Throw InvalidPlayer else Normal r)).

(** [player.wrapper] on the resolved player: the property of the player
    object, whichever object that is; a primitive and an element without
    the player's interface have none. *)
Definition player_wrapper (anim : Player.AnimationItem) (p : PlayerValue) : ElementRef :=
  match p with
  | PAnimationItem | PObject _ => Player.wrapper anim
  | _ => RUndefined
  end.

(** Lines 30-38. *)
Definition resolve_container (document : Document) (anim : Player.AnimationItem)
    (c : ContainerValue) (p : PlayerValue) : Completion ElementRef :=
  cbind
    match c with
    | CString s => querySelector document s
    | CElement e => Normal (RElement e)
    | CUndefined => Normal RUndefined
    end
    (fun c' => Normal (if negb (ref_truthy c') then player_wrapper anim p else c')).

(** [new LottieInteractivity(arg)]; [arg = None] is the call without an
    argument, which takes [DEFAULT_OPTIONS]. *)
Definition argument (arg : option Options) : Options :=
  match arg with
  | Some o => o
  | None => DEFAULT_OPTIONS
  end.

Definition constructor (document : Document) (anim : Player.AnimationItem)
    (arg : option Options) : Completion LottieInteractivity :=
  let o := argument arg in
  cbind (resolve_player document (opt_player o)) (fun r =>
  cbind (resolve_container document anim (opt_container o) (fst r)) (fun c =>
  Normal {| player := fst r;
            container := c;
            mode := opt_mode o;
            actions := opt_actions o;
            playerInstance := snd r |})).

(** What [boundingBoxUtils] returns when it does not return [undefined]. *)
Record Sample := {
  s_height : JS.number;
  s_bottom : JS.number;
  currentPercent : JS.number;
  action : Action.t
}.

(** The predicate of [this.actions.find]. *)
Definition in_range (currentPercent : JS.number) (a : Action.t) : bool :=
  JS.ge currentPercent (Action.start a) && JS.le currentPercent (Action.end_ a).

Definition find_action (currentPercent : JS.number) (l : list Action.t) : option Action.t :=
  find (in_range currentPercent) l.

(** [boundingBoxUtils()]: [Normal None] is the return of [undefined]. *)
Definition boundingBoxUtils (this : LottieInteractivity) (env : Env) : Completion (option Sample) :=
  match container this with
  | RElement _ =>
      let current := innerHeight env - top (rect env) in
      let max := innerHeight env + height (rect env) in
      let currentPercent := current / max in
      if JS.lt currentPercent 0 || JS.gt currentPercent 1 then Normal None
      else
        match actions this with
        | None => Throw TypeError
        | Some l =>
            match find_action currentPercent l with
            | None => Normal None
            | Some a =>
                Normal (Some {| s_height := height (rect env);
                                s_bottom := bottom (rect env);
                                currentPercent := currentPercent;
                                action := a |})
            end
        end
  | _ => Throw TypeError
  end.

(** [const { ... } = this.boundingBoxUtils()]: taking [undefined] apart
    throws. *)
Definition destructure (c : Completion (option Sample)) : M Sample :=
  match c with
  | Normal (Some s) => ret s
  | Normal None => throw TypeError
  | Throw e => throw e
  end.

(** [action.frames[0]]: throws when [frames] is absent, is [undefined]
    on an empty list. *)
Definition frames_0 (a : Action.t) : M (option JS.number) :=
  match Action.frames a with
  | None => throw TypeError
  | Some l => ret (nth_error l 0)
  end.

(** The [try] block of [hoverStartHandler]. *)
Definition hoverStartHandler_body {E : Engine} (this : LottieInteractivity) (env : Env) : M unit :=
  s <- destructure (boundingBoxUtils this env) ;;
  let action := action s in
  if Action.type action =? "loop" then
    paused <- player_isPaused (player this) ;;
    if paused then player_call (player this) (Player.playSegments (Action.frames action) (Some true))
    else ret tt
  else if Action.type action =? "play" then
    paused <- player_isPaused (player this) ;;
    (if paused then player_call (player this) Player.resetSegments else ret tt) ;;;
    player_call (player this) (Player.playSegments (Action.frames action) None)
  else if Action.type action =? "stop" then
    f <- frames_0 action ;;
    player_call (player this) (Player.goToAndStop f None) ;;;
    player_call (player this) Player.stop
  else ret tt.

Definition hoverStartHandler {E : Engine} (this : LottieInteractivity) (env : Env) : M unit :=
  try_catch (hoverStartHandler_body this env).

(** The [try] block of [hoverEndHandler]. *)
Definition hoverEndHandler_body {E : Engine} (this : LottieInteractivity) (env : Env) : M unit :=
  s <- destructure (boundingBoxUtils this env) ;;
  let action := action s in
  if Action.type action =? "loop" then player_call (player this) Player.stop
  else if Action.type action =? "play" then player_call (player this) Player.stop
  else if Action.type action =? "stop" then
    player_call (player this) (Player.playSegments (Action.frames action) (Some true))
  else ret tt.

Definition hoverEndHandler {E : Engine} (this : LottieInteractivity) (env : Env) : M unit :=
  try_catch (hoverEndHandler_body this env).

(** The frame of the scroll [seek]. *)
Definition seek_frame (currentPercent : JS.number) (a : Action.t) (totalFrames : JS.number) : JS.number :=
  JS.Math_ceil (((currentPercent - Action.start a) / (Action.end_ a - Action.start a)) * totalFrames).

(** The [try] block of [scrollHandler]. *)
Definition scrollHandler_body {E : Engine} (this : LottieInteractivity) (env : Env) : M unit :=
  s <- destructure (boundingBoxUtils this env) ;;
  let currentPercent := currentPercent s in
  let action := action s in
  player_set_loop (player this) ;;;
  if Action.type action =? "seek" then
    player_call (player this) (Player.playSegments (Action.frames action) (Some true)) ;;;
    totalFrames <- player_totalFrames (player this) ;;
    player_call (player this)
      (Player.goToAndStop (Some (seek_frame currentPercent action totalFrames)) (Some true))
  else if Action.type action =? "loop" then
    paused <- player_isPaused (player this) ;;
    if paused then player_call (player this) (Player.playSegments (Action.frames action) (Some true))
    else ret tt
  else if Action.type action =? "play" then
    paused <- player_isPaused (player this) ;;
    (if paused then player_call (player this) Player.resetSegments else ret tt) ;;;
    player_call (player this) Player.play
  else if Action.type action =? "stop" then
    f <- frames_0 action ;;
    player_call (player this) (Player.goToAndStop f None) ;;;
    player_call (player this) Player.stop
  else ret tt.

Definition scrollHandler {E : Engine} (this : LottieInteractivity) (env : Env) : M unit :=
  try_catch (scrollHandler_body this env).

(** The [while (obj.offsetParent)] loop. *)
Fixpoint offset_walk (obj : OffsetNode) (obj_left obj_top : JS.number) : JS.number * JS.number :=
  match obj with
  | Root => (obj_left, obj_top)
  | Child offsetLeft offsetTop offsetParent =>
      offset_walk offsetParent (obj_left + offsetLeft) (obj_top + offsetTop)
  end.

(** The pointer in page coordinates: from the event, or without one from
    [window.event] and the body's scroll offsets. *)
Definition pointer (env : Env) (mouseEvent : option MouseEvent) : M (JS.number * JS.number) :=
  match mouseEvent with
  | Some ev => ret (pageX ev, pageY ev)
  | None =>
      match window_event env with
      | Some (x, y) => ret (x + body_scrollLeft env - 2, y + body_scrollTop env - 2)
      | None => throw TypeError
      end
  end.

(** The pointer relative to the container. *)
Definition relative_pointer (env : Env) (page_pos : JS.number * JS.number) : JS.number * JS.number :=
  let (obj_left, obj_top) := offset_walk (offsets env) 0 0 in
  (fst page_pos - obj_left, snd page_pos - obj_top).

Definition percentageString (percentage : JS.number) : string :=
  JS.Number_toString percentage ++ "%".

(** The [try] block of [mousePositionHandler]. *)
Definition mousePositionHandler_body {E : Engine} (this : LottieInteractivity) (env : Env)
    (mouseEvent : option MouseEvent) : M unit :=
  s <- destructure (boundingBoxUtils this env) ;;
  let height := s_height s in
  let bottom := s_bottom s in
  let action := action s in
  page_pos <- pointer env mouseEvent ;;
  let (xpos, ypos) := relative_pointer env page_pos in
  if Action.type action =? "seek-yaxis" then
    let percentage := JS.Math_ceil ((ypos / height) * 100) in
    playerInstance_seek (playerInstance this) (percentageString percentage)
  else if Action.type action =? "seek-xaxis" then
    let percentage := JS.Math_ceil ((xpos / bottom) * 100) in
    playerInstance_seek (playerInstance this) (percentageString percentage)
  else ret tt.

Definition mousePositionHandler {E : Engine} (this : LottieInteractivity) (env : Env)
    (mouseEvent : option MouseEvent) : M unit :=
  try_catch (mousePositionHandler_body this env mouseEvent).

(* ===================================================================== *)
(** ** Listeners: start, stop and event dispatch *)
(* ===================================================================== *)

(** The four handler functions of an instance, as the identities handed to
    the event targets. *)
Inductive Handler :=
| ScrollHandler
| HoverStartHandler
| HoverEndHandler
| MousePositionHandler.

Definition handler_eqb (a b : Handler) : bool :=
  match a, b with
  | ScrollHandler, ScrollHandler
  | HoverStartHandler, HoverStartHandler
  | HoverEndHandler, HoverEndHandler
  | MousePositionHandler, MousePositionHandler => true
  | _, _ => false
  end.

Definition Listener := (string * Handler)%type.

Definition listener_eqb (a b : Listener) : bool :=
  (fst a =? fst b) && handler_eqb (snd a) (snd b).

(** What the instance has registered on [window] and on its container:
    the listener lists of the two targets and the container's
    [onmousemove] property. *)
Record Targets := {
  window_listeners : list Listener;
  container_listeners : list Listener;
  container_onmousemove : option Handler
}.

(** [addEventListener] ignores a listener that is registered already. *)
Definition addEventListener (l : list Listener) (type : string) (h : Handler) : list Listener :=
  if existsb (listener_eqb (type, h)) l then l else l ++ [(type, h)].

Definition removeEventListener (l : list Listener) (type : string) (h : Handler) : list Listener :=
  filter (fun x => negb (listener_eqb (type, h) x)) l.

Definition mode_is (this : LottieInteractivity) (m : string) : bool :=
  match mode this with
  | Some m' => m' =? m
  | None => false
  end.

(** A statement on [this.container], which throws unless the container
    is an element. *)
Definition on_container {A} (this : LottieInteractivity) (a : A) : Completion A :=
  match container this with
  | RElement _ => Normal a
  | _ => Throw TypeError
  end.

Definition start (this : LottieInteractivity) (t : Targets) : Completion Targets :=
  let t1 :=
    if mode_is this "scroll" then
      {| window_listeners := addEventListener (window_listeners t) "scroll" ScrollHandler;
         container_listeners := container_listeners t;
         container_onmousemove := container_onmousemove t |}
    else t in
  cbind
    (if mode_is this "hover" then
       on_container this
         {| window_listeners := window_listeners t1;
            container_listeners :=
              addEventListener
                (addEventListener (container_listeners t1) "mouseenter" HoverStartHandler)
                "mouseleave" HoverEndHandler;
            container_onmousemove := container_onmousemove t1 |}
     else Normal t1)
    (fun t2 =>
       if mode_is this "mouseposition" then
         on_container this
           {| window_listeners := window_listeners t2;
              container_listeners := container_listeners t2;
              container_onmousemove := Some MousePositionHandler |}
       else Normal t2).

Definition stop (this : LottieInteractivity) (t : Targets) : Completion Targets :=
  let t1 :=
    if mode_is this "scroll" then
      {| window_listeners := removeEventListener (window_listeners t) "scroll" ScrollHandler;
         container_listeners := container_listeners t;
         container_onmousemove := container_onmousemove t |}
    else t in
  if mode_is this "hover" then
    on_container this
      {| window_listeners := window_listeners t1;
         container_listeners :=
           removeEventListener
             (removeEventListener (container_listeners t1) "mouseenter" HoverStartHandler)
             "mouseleave" HoverEndHandler;
         container_onmousemove := container_onmousemove t1 |}
  else Normal t1.

(** [create(options)]. *)
Definition create (document : Document) (anim : Player.AnimationItem)
    (arg : option Options) (t : Targets) : Completion (LottieInteractivity * Targets) :=
  cbind (constructor document anim arg) (fun instance =>
  cbind (start instance t) (fun t' => Normal (instance, t'))).

(** The DOM events of the three modes: [scroll] reaches [window], the
    others are fired at the container. *)
Inductive Event :=
| Scroll
| MouseEnter
| MouseLeave
| MouseMove (ev : MouseEvent).

Definition of_type (type : string) (l : list Listener) : list Handler :=
  map snd (filter (fun x => fst x =? type) l).

Definition option_list {A} (o : option A) : list A :=
  match o with
  | Some a => [a]
  | None => []
  end.

(** The handlers of the instance an event reaches. *)
Definition receivers (t : Targets) (ev : Event) : list Handler :=
  match ev with
  | Scroll => of_type "scroll" (window_listeners t)
  | MouseEnter => of_type "mouseenter" (container_listeners t)
  | MouseLeave => of_type "mouseleave" (container_listeners t)
  | MouseMove _ => of_type "mousemove" (container_listeners t) ++ option_list (container_onmousemove t)
  end.

(** The event object as [mousePositionHandler] reads it: an event that is
    not a mouse event has no [pageX] and [pageY], and [undefined] in the
    subtractions is NaN. *)
Definition mouse_argument (ev : Event) : option MouseEvent :=
  match ev with
  | MouseMove m => Some m
  | _ => Some {| pageX := nan; pageY := nan |}
  end.

Definition invoke {E : Engine} (this : LottieInteractivity) (env : Env) (ev : Event) (h : Handler) : M unit :=
  match h with
  | ScrollHandler => scrollHandler this env
  | HoverStartHandler => hoverStartHandler this env
  | HoverEndHandler => hoverEndHandler this env
  | MousePositionHandler => mousePositionHandler this env (mouse_argument ev)
  end.

Fixpoint invoke_all {E : Engine} (this : LottieInteractivity) (env : Env) (ev : Event)
    (hs : list Handler) : M unit :=
  match hs with
  | [] => ret tt
  | h :: hs' => invoke this env ev h ;;; invoke_all this env ev hs'
  end.

(** The host dispatching one event. *)
Definition dispatch {E : Engine} (this : LottieInteractivity) (env : Env) (t : Targets) (ev : Event) : M unit :=
  invoke_all this env ev (receivers t ev).

Definition no_listeners : Targets :=
  {| window_listeners := []; container_listeners := []; container_onmousemove := None |}.

(* ===================================================================== *)
(** ** Concrete pages and instances *)
(* ===================================================================== *)

Definition div : Element := {| nodeName := "DIV"; component := None |}.

Definition lottie_player : Element := {| nodeName := LOTTIE_PLAYER_NODE; component := Some true |}.

Definition box (top height : JS.number) : DOMRect :=
  {| top := top; bottom := top + height; left := 0; right := 1000; width := 1000; height := height |}.

Definition env_of (innerHeight top height : JS.number) : Env :=
  {| innerHeight := innerHeight;
     rect := box top height;
     offsets := Root;
     window_event := None;
     body_scrollLeft := 0;
     body_scrollTop := 0 |}.

Definition paused_item (totalFrames : JS.number) : Player.AnimationItem :=
  {| Player.isPaused := true; Player.loop := false;
     Player.totalFrames := totalFrames; Player.wrapper := RElement div |}.

Definition fresh_page (totalFrames : JS.number) : Page :=
  {| item := paused_item totalFrames; trace := [] |}.

Definition instance_of (mode : string) (l : list Action.t) (pi : ElementRef) : LottieInteractivity :=
  {| player := PAnimationItem;
     container := RElement div;
     mode := Some mode;
     actions := Some l;
     playerInstance := pi |}.

(** The scroll scenario of the specification: top 100, height 400,
    viewport height 800, 200 frames. *)
Definition seek_action : Action.t :=
  {| Action.start := 0.5; Action.end_ := 0.7; Action.type := "seek"; Action.frames := Some [0; 100] |}.

Definition scroll_scenario : LottieInteractivity := instance_of "scroll" [seek_action] RUndefined.
Definition scroll_env : Env := env_of 800 100 400.


(** The hover scenario: an action of type [stop] covering the whole
    window. *)
Definition stop_action : Action.t :=
  {| Action.start := 0; Action.end_ := 1; Action.type := "stop"; Action.frames := Some [10; 40] |}.

Definition hover_scenario : LottieInteractivity := instance_of "hover" [stop_action] RUndefined.

(** A [stop] action that lacks its frames. *)
Definition stop_without_frames : Action.t :=
  {| Action.start := 0; Action.end_ := 1; Action.type := "stop"; Action.frames := None |}.

Definition malformed_scenario : LottieInteractivity :=
  instance_of "scroll" [stop_without_frames] RUndefined.

(** The scenario without a match: [currentPercent] is 0.9 and the only
    action ends at 0.3. *)
Definition early_action : Action.t :=
  {| Action.start := 0; Action.end_ := 0.3; Action.type := "loop"; Action.frames := Some [0; 10] |}.

Definition no_match_scenario : LottieInteractivity := instance_of "scroll" [early_action] RUndefined.
Definition no_match_env : Env := env_of 800 (-100) 200.

(** Two overlapping actions. *)
Definition wide_action : Action.t :=
  {| Action.start := 0.2; Action.end_ := 0.9; Action.type := "loop"; Action.frames := Some [0; 10] |}.

(** The pointer scenario: a container of height 200 whose box starts 100
    below the top of a viewport of height 800, at offset (10, 100) in the
    page, and a pointer 50 below and 100 right of its corner. *)
Definition yaxis_action : Action.t :=
  {| Action.start := 0.6; Action.end_ := 0.8; Action.type := "seek-yaxis"; Action.frames := None |}.


Definition pointer_env : Env :=
  {| innerHeight := 800;
     rect := box 100 200;
     offsets := Child 10 100 Root;
     window_event := None;
     body_scrollLeft := 0;
     body_scrollTop := 0 |}.

Definition pointer_event : MouseEvent := {| pageX := 110; pageY := 150 |}.

(** The instance [new LottieInteractivity({player: 'lottie-player', ...})]
    builds on a page with one loaded lottie-player element. *)
Definition pointer_scenario : LottieInteractivity :=
  instance_of "mouseposition" [yaxis_action] (RElement lottie_player).

Definition one_player_document : Document :=
  fun s => if s =? "lottie-player" then Match lottie_player else NoMatch.

Definition pointer_options (p : PlayerValue) : Options :=
  {| opt_actions := Some [yaxis_action];
     opt_container := CElement div;
     opt_mode := Some "mouseposition";
     opt_player := p;
     opt_playerInstance := RElement lottie_player |}.

(** A selector that matches nothing. *)
Definition missing_options : Options :=
  {| opt_actions := Some [seek_action];
     opt_container := CUndefined;
     opt_mode := Some "scroll";
     opt_player := PString "#missing";
     opt_playerInstance := RUndefined |}.

(** The targets after [start()] in the pointer scenario. *)
Definition pointer_targets : Targets :=
  {| window_listeners := [];
     container_listeners := [];
     container_onmousemove := Some MousePositionHandler |}.

(** An engine whose methods return normally and leave the properties of
    the item as they are. *)
Definition inert : Engine := fun _ item => (Normal tt, item).

(** An engine on which a forced [playSegments] of a pair of frames makes
    the range the item's segment, with [totalFrames] its length, and
    which throws when the frames are missing. *)
Definition segmenting : Engine :=
  fun c item =>
    match c with
    | Player.playSegments (Some [first; last]) (Some true) =>
        (Normal tt,
         {| Player.isPaused := false;
            Player.loop := Player.loop item;
            Player.totalFrames := last - first;
            Player.wrapper := Player.wrapper item |})
    | Player.playSegments None _ => (Throw TypeError, item)
    | _ => (Normal tt, item)
    end.

(** A page of no extent: viewport and container of height 0, at the
    top. *)
Definition empty_env : Env := env_of 0 0 0.

(** The container below the fold: its top is 100 under a viewport of
    height 800. *)
Definition below_env : Env := env_of 800 900 200.

(** An instance that has lost its actions. *)
Definition actionless (mode : string) : LottieInteractivity :=
  {| player := PAnimationItem;
     container := RElement div;
     mode := Some mode;
     actions := None;
     playerInstance := RUndefined |}.

(** An action whose bounds are not numbers. *)
Definition unbounded_action : Action.t :=
  {| Action.start := nan; Action.end_ := nan; Action.type := "loop"; Action.frames := Some [0; 10] |}.

(** The options of [missing_options] in hover mode. *)
Definition missing_hover_options : Options :=
  {| opt_actions := Some [stop_action];
     opt_container := CUndefined;
     opt_mode := Some "hover";
     opt_player := PString "#missing";
     opt_playerInstance := RUndefined |}.

(** Targets on which the page's own code has a scroll listener that
    happens to be the hover handler. *)
Definition busy_targets : Targets :=
  {| window_listeners := [("scroll", HoverStartHandler)];
     container_listeners := [("click", HoverEndHandler)];
     container_onmousemove := None |}.

(** The receivers an event has once the mode's listeners are attached to
    a page without any. *)
Definition attached (this : LottieInteractivity) (ev : Event) : list Handler :=
  match ev with
  | Scroll => if mode_is this "scroll" then [ScrollHandler] else []
  | MouseEnter => if mode_is this "hover" then [HoverStartHandler] else []
  | MouseLeave => if mode_is this "hover" then [HoverEndHandler] else []
  | MouseMove _ => if mode_is this "mouseposition" then [MousePositionHandler] else []
  end.

(** [l] holds the listener [(type, h)]. *)
Definition registered (l : list Listener) (type : string) (h : Handler) : bool :=
  existsb (listener_eqb (type, h)) l.

(** What [new LottieInteractivity()] builds on the page with one loaded
    lottie-player element. *)
Definition default_instance : LottieInteractivity :=
  {| player := PAnimationItem;
     container := RElement div;
     mode := None;
     actions := None;
     playerInstance := RElement lottie_player |}.

(** Actions of type [play] and [loop] covering the whole window. *)
Definition play_action : Action.t :=
  {| Action.start := 0; Action.end_ := 1; Action.type := "play"; Action.frames := Some [0; 10] |}.

Definition loop_action : Action.t :=
  {| Action.start := 0; Action.end_ := 1; Action.type := "loop"; Action.frames := Some [0; 10] |}.

(** A page whose player is playing. *)
Definition playing_page : Page :=
  {| item := {| Player.isPaused := false; Player.loop := false;
                Player.totalFrames := 200; Player.wrapper := RElement div |};
     trace := [] |}.

(** The call [c] on the item [it] and, when it returns, the calls
    [rest]. *)
Definition followed {E : Engine} (c : Player.Call) (it : Player.AnimationItem)
    (rest : list Player.Call) : list Player.Call :=
  c :: match fst (react c it) with
       | Normal _ => rest
       | Throw _ => []
       end.

(** The page of the pointer scenario in a browser that passes no event:
    [window.event] is at (102, 142) and the body is scrolled by 10 each
    way. *)
Definition legacy_env : Env :=
  {| innerHeight := 800;
     rect := box 100 200;
     offsets := Child 10 100 Root;
     window_event := Some (102, 142);
     body_scrollLeft := 10;
     body_scrollTop := 10 |}.

(** An object that is no animation item and has the five methods. *)
Definition duck : ForeignObject :=
  {| has_constructor := true;
     has_playSegments := true;
     has_resetSegments := true;
     has_stop := true;
     has_play := true;
     has_goToAndStop := true |}.

(** The instance with another player. *)
Definition with_player (p : PlayerValue) (this : LottieInteractivity) : LottieInteractivity :=
  {| player := p;
     container := container this;
     mode := mode this;
     actions := actions this;
     playerInstance := playerInstance this |}.

(** Three actions of which the last two overlap around 0.58. *)
Definition overlap_scenario : LottieInteractivity :=
  instance_of "scroll" [early_action; wide_action; seek_action] RUndefined.

(** The [try] block of each handler, by its identity. *)
Definition body_of {E : Engine} (this : LottieInteractivity) (env : Env) (ev : Event) (h : Handler) : M unit :=
  match h with
  | ScrollHandler => scrollHandler_body this env
  | HoverStartHandler => hoverStartHandler_body this env
  | HoverEndHandler => hoverEndHandler_body this env
  | MousePositionHandler => mousePositionHandler_body this env (mouse_argument ev)
  end.

(** The engine leaves the [loop] flag to the class. *)
Definition keeps_loop {E : Engine} : Prop :=
  forall c it, Player.loop (snd (react c it)) = Player.loop it.

(** From [pg] to [pg'] the trace has only grown, and with an engine that
    keeps the flag [loop] is the same. *)
Definition grows {E : Engine} (pg pg' : Page) : Prop :=
  (exists k, trace pg' = trace pg ++ k)%list /\
  (keeps_loop -> Player.loop (item pg') = Player.loop (item pg)).

(** A statement that only adds to the trace. *)
Definition steady {E : Engine} {A} (m : M A) : Prop := forall pg, grows pg (snd (m pg)).

(* ===================================================================== *)
(** ** Comparisons of numbers *)
(* ===================================================================== *)

Local Open Scope list_scope.

Lemma SFcompare_refl (f : spec_float) :
  f <> S754_nan -> SFcompare f f = Some Eq.
Proof.
  destruct f as [s | s | | s m e]; simpl; intro H.
  - now destruct s.
  - now destruct s.
  - now elim H.
  - rewrite Z.compare_refl.
    change (Pos.compare_cont Eq m m) with (Pos.compare m m).
    rewrite Pos.compare_refl. now destruct s.
Qed.

Lemma SFleb_not_nan (f g : spec_float) :
  SFleb f g = true -> f <> S754_nan /\ g <> S754_nan.
Proof.
  unfold SFleb. intro H. split; intro E; subst.
  - discriminate H.
  - destruct f; discriminate H.
Qed.

(** A number that takes part in a true [<=] is not NaN, and is [<=]
    itself. *)
Lemma le_refl_of_le (x y : JS.number) :
  JS.le x y = true -> JS.le x x = true /\ JS.le y y = true.
Proof.
  unfold JS.le. rewrite !leb_spec. intro H.
  destruct (SFleb_not_nan _ _ H) as [Hx Hy].
  unfold SFleb. now rewrite !SFcompare_refl.
Qed.

(** Two numbers on which [==] computes to [false] are different. *)
Lemma number_neq (x y : JS.number) : PrimFloat.eqb x y = false -> PrimFloat.eqb y y = true -> x <> y.
Proof.
  intros H1 H2 E. subst. rewrite H1 in H2. discriminate.
Qed.

(** [Math.ceil] and [toString] on sample values. *)
Example Math_ceil_values :
  map JS.Math_ceil [0.5; -0.5; 1.5; -1.5; 25; 83.3333333333334; 4503599627370495.5; infinity] =
  [1; -0; 2; -1; 25; 84; 4503599627370496; infinity].
Proof.
  vm_compute. reflexivity.
Qed.

Example Number_toString_values :
  map JS.Number_toString
    [0; -0; 25; -3; 0.1; 0.1 + 0.2; 1e21; 123456789012345680000; 0x1p60; 1e-7; 5e-324; nan;
     infinity; neg_infinity] =
  ["0"; "0"; "25"; "-3"; "0.1"; "0.30000000000000004"; "1e+21"; "123456789012345680000";
   "1152921504606847000"; "1e-7"; "5e-324"; "NaN"; "Infinity"; "-Infinity"].
Proof.
  vm_compute. reflexivity.
Qed.

(* ===================================================================== *)
(** ** Action resolution *)
(* ===================================================================== *)

Lemma find_action_some (cp : JS.number) (l : list Action.t) (a : Action.t) :
  find_action cp l = Some a <->
  exists before after,
    l = before ++ a :: after /\ in_range cp a = true /\
    Forall (fun b => in_range cp b = false) before.
Proof.
  unfold find_action. split.
  - induction l as [| b l IH]; simpl; [discriminate |].
    destruct (in_range cp b) eqn:E.
    + intros [= ->]. exists [], l. auto.
    + intro H. destruct (IH H) as (before & after & -> & Ha & Hb).
      exists (b :: before), after. auto.
  - intros (before & after & -> & Ha & Hb).
    induction Hb as [| b before Hb _ IH]; simpl.
    + now rewrite Ha.
    + now rewrite Hb.
Qed.

Lemma find_action_none (cp : JS.number) (l : list Action.t) :
  find_action cp l = None <-> Forall (fun b => in_range cp b = false) l.
Proof.
  unfold find_action. induction l as [| b l IH]; simpl.
  - split; auto.
  - destruct (in_range cp b) eqn:E.
    + split; [discriminate |]. intro H. inversion H; subst. congruence.
    + rewrite IH. split; [auto | intro H; now inversion H].
Qed.

(** Of two matching actions the later one is never preferred: the action
    returned stands no later than the earlier of the two. *)
Lemma find_action_earlier (cp : JS.number) (l1 l2 l3 : list Action.t) (a b : Action.t) :
  in_range cp a = true ->
  exists r before after,
    find_action cp (l1 ++ a :: l2 ++ b :: l3) = Some r /\
    l1 ++ a :: l2 ++ b :: l3 = before ++ r :: after /\
    (List.length before <= List.length l1)%nat /\
    (Forall (fun c => in_range cp c = false) l1 -> r = a).
Proof.
  intro Ha. unfold find_action.
  induction l1 as [| c l1 IH]; simpl.
  - rewrite Ha. exists a, [], (l2 ++ b :: l3). auto.
  - destruct (in_range cp c) eqn:E.
    + exists c, [], (l1 ++ a :: l2 ++ b :: l3). repeat split; simpl; auto with arith.
      intro H. inversion H; subst. congruence.
    + destruct IH as (r & before & after & Hf & Hl & Hn & Hr).
      exists r, (c :: before), after. repeat split; simpl; auto with arith.
      * now rewrite Hl.
      * intro H. inversion H; subst. auto.
Qed.

(** [boundingBoxUtils] in the window: what [find] returns on the
    configured actions decides. *)
Lemma boundingBoxUtils_resolves (this : LottieInteractivity) (env : Env) (e : Element)
    (l : list Action.t) :
  container this = RElement e ->
  actions this = Some l ->
  let cp := (innerHeight env - top (rect env)) / (innerHeight env + height (rect env)) in
  JS.lt cp 0 || JS.gt cp 1 = false ->
  boundingBoxUtils this env =
    match find_action cp l with
    | Some a => Normal (Some {| s_height := height (rect env);
                                s_bottom := bottom (rect env);
                                currentPercent := cp;
                                action := a |})
    | None => Normal None
    end.
Proof.
  intros Hc Ha cp Hw. unfold boundingBoxUtils. rewrite Hc, Ha. fold cp. now rewrite Hw.
Qed.

(** C7. Resolution scans the actions in declaration order and returns the
    first one whose range contains [currentPercent], both ends included.
    The scan, [find_action], returns [a] exactly when [a] matches and
    nothing before it does, returns nothing exactly when no action
    matches, a range contains its two ends, and of two actions that both
    contain the sample the one returned is never behind the earlier one
    (it is the earlier one when nothing before it matches).  And
    [boundingBoxUtils] resolves by that scan: in the window it returns the
    sample with the action the scan returns on [this.actions], and
    [undefined] when the scan returns none, so the action of every sample
    it returns is the first configured action in range. *)
Theorem find_action_first_match (cp : JS.number) (l : list Action.t) :
  (forall a,
     find_action cp l = Some a <->
     exists before after,
       l = before ++ a :: after /\ in_range cp a = true /\
       Forall (fun b => in_range cp b = false) before) /\
  (find_action cp l = None <-> Forall (fun b => in_range cp b = false) l) /\
  (forall a,
     in_range cp a = (PrimFloat.leb (Action.start a) cp && PrimFloat.leb cp (Action.end_ a))%bool) /\
  (forall a,
     JS.le (Action.start a) (Action.end_ a) = true ->
     in_range (Action.start a) a = true /\ in_range (Action.end_ a) a = true) /\
  (forall l1 a l2 b l3,
     l = l1 ++ a :: l2 ++ b :: l3 ->
     in_range cp a = true -> in_range cp b = true ->
     exists r before after,
       find_action cp l = Some r /\ l = before ++ r :: after /\
       (List.length before <= List.length l1)%nat /\
       (Forall (fun c => in_range cp c = false) l1 -> r = a)) /\
  (forall this env e,
     container this = RElement e ->
     actions this = Some l ->
     cp = (innerHeight env - top (rect env)) / (innerHeight env + height (rect env)) ->
     JS.lt cp 0 || JS.gt cp 1 = false ->
     boundingBoxUtils this env =
       match find_action cp l with
       | Some a => Normal (Some {| s_height := height (rect env);
                                   s_bottom := bottom (rect env);
                                   currentPercent := cp;
                                   action := a |})
       | None => Normal None
       end) /\
  (forall this env s,
     actions this = Some l ->
     boundingBoxUtils this env = Normal (Some s) ->
     currentPercent s = cp ->
     exists before after,
       l = before ++ action s :: after /\ in_range cp (action s) = true /\
       Forall (fun b => in_range cp b = false) before).
Proof.
  split; [| split; [| split; [| split; [| split; [| split]]]]].
  - intro a. apply find_action_some.
  - apply find_action_none.
  - reflexivity.
  - intros a H. destruct (le_refl_of_le _ _ H) as [Hs He].
    unfold in_range, JS.ge, JS.le in *. now rewrite Hs, He, H.
  - intros l1 a l2 b l3 -> Ha _. now apply find_action_earlier.
  - intros this env e Hc Ha -> Hw. now apply boundingBoxUtils_resolves with (e := e).
  - intros this env s Ha Hs <-. unfold boundingBoxUtils in Hs. rewrite Ha in Hs.
    destruct (container this); try discriminate Hs.
    destruct (JS.lt _ 0 || JS.gt _ 1); [discriminate Hs |].
    destruct (find_action _ l) as [a |] eqn:F; [| discriminate Hs].
    injection Hs as <-. simpl. now apply find_action_some.
Qed.

(** The overlap law at work: [wide_action] and [seek_action] both contain
    0.6, and whichever is declared first is returned; and in the scroll
    page, where both contain [currentPercent], [boundingBoxUtils] returns
    [wide_action], declared before [seek_action]. *)
Lemma find_action_first_match_witness :
  find_action 0.6 [early_action; wide_action; seek_action] = Some wide_action /\
  find_action 0.6 [early_action; seek_action; wide_action] = Some seek_action /\
  boundingBoxUtils overlap_scenario scroll_env =
    Normal (Some {| s_height := 400; s_bottom := 500; currentPercent := 700 / 1200;
                    action := wide_action |}).
Proof.
  split; [| split].
  - destruct (proj1 (proj2 (proj2 (proj2 (proj2
      (find_action_first_match 0.6 [early_action; wide_action; seek_action])))))
      [early_action] wide_action [] seek_action [] eq_refl eq_refl eq_refl)
      as (r & before & after & Hf & _ & _ & Hr).
    rewrite Hf. f_equal. apply Hr. repeat constructor.
  - destruct (proj1 (proj2 (proj2 (proj2 (proj2
      (find_action_first_match 0.6 [early_action; seek_action; wide_action])))))
      [early_action] seek_action [] wide_action [] eq_refl eq_refl eq_refl)
      as (r & before & after & Hf & _ & _ & Hr).
    rewrite Hf. f_equal. apply Hr. repeat constructor.
  - exact (proj1 (proj2 (proj2 (proj2 (proj2 (proj2
      (find_action_first_match (700 / 1200) [early_action; wide_action; seek_action]))))))
      overlap_scenario scroll_env div eq_refl eq_refl eq_refl eq_refl).
Defined.

(* ===================================================================== *)
(** ** The handler boundary *)
(* ===================================================================== *)

Arguments JS.Math_ceil : simpl never.
Arguments JS.Number_toString : simpl never.

Lemma try_catch_completes (body : M unit) (pg : Page) :
  fst (try_catch body pg) = Normal tt.
Proof.
  unfold try_catch. now destruct (body pg) as [[u | e] pg'].
Qed.

Lemma try_catch_page (body : M unit) (pg : Page) :
  snd (try_catch body pg) = snd (body pg).
Proof.
  unfold try_catch. now destruct (body pg) as [[u | e] pg'].
Qed.

(** With a sample the [try] block goes on with it. *)
Lemma destructure_sample {A} (this : LottieInteractivity) (env : Env) (s : Sample)
    (k : Sample -> M A) (pg : Page) :
  boundingBoxUtils this env = Normal (Some s) ->
  bind (destructure (boundingBoxUtils this env)) k pg = k s pg.
Proof.
  intro H. now rewrite H.
Qed.

(** Without one it throws before anything is done. *)
Lemma destructure_no_sample {A} (this : LottieInteractivity) (env : Env)
    (k : Sample -> M A) (pg : Page) :
  (forall s, boundingBoxUtils this env <> Normal (Some s)) ->
  exists e, bind (destructure (boundingBoxUtils this env)) k pg = (Throw e, pg).
Proof.
  intro H. destruct (boundingBoxUtils this env) as [[s |] | e] eqn:E.
  - now elim (H s).
  - now exists TypeError.
  - now exists e.
Qed.

Lemma body_no_sample {E : Engine} (this : LottieInteractivity) (env : Env) (ev : Event)
    (h : Handler) (pg : Page) :
  (forall s, boundingBoxUtils this env <> Normal (Some s)) ->
  exists e, body_of this env ev h pg = (Throw e, pg).
Proof.
  intro H. destruct h; apply destructure_no_sample; assumption.
Qed.

Lemma invoke_try_catch {E : Engine} (this : LottieInteractivity) (env : Env) (ev : Event)
    (h : Handler) :
  invoke this env ev h = try_catch (body_of this env ev h).
Proof.
  now destruct h.
Qed.

(** What a sample holds. *)
Lemma sample_fields (this : LottieInteractivity) (env : Env) (s : Sample) :
  boundingBoxUtils this env = Normal (Some s) ->
  currentPercent s = (innerHeight env - top (rect env)) / (innerHeight env + height (rect env)) /\
  s_height s = height (rect env) /\
  s_bottom s = bottom (rect env) /\
  (exists l, actions this = Some l /\ find_action (currentPercent s) l = Some (action s)) /\
  JS.lt (currentPercent s) 0 = false /\ JS.gt (currentPercent s) 1 = false.
Proof.
  unfold boundingBoxUtils.
  destruct (container this); try discriminate.
  destruct (JS.lt _ 0) eqn:E1; [discriminate |].
  destruct (JS.gt _ 1) eqn:E2; [discriminate |]. simpl.
  destruct (actions this) as [l |]; [| discriminate].
  destruct (find_action _ l) as [a |] eqn:F; [| discriminate].
  intros [= <-]. simpl. repeat split; eauto.
Qed.

(* ===================================================================== *)
(** ** Statements that only add to the trace *)
(* ===================================================================== *)

Section Steady.

Context {E : Engine}.

Lemma grows_refl (pg : Page) : grows pg pg.
Proof.
  split; [exists []; now rewrite app_nil_r | reflexivity].
Qed.

Lemma grows_trans (pg1 pg2 pg3 : Page) : grows pg1 pg2 -> grows pg2 pg3 -> grows pg1 pg3.
Proof.
  intros [[k1 H1] L1] [[k2 H2] L2]. split.
  - exists (k1 ++ k2). now rewrite H2, H1, app_assoc.
  - intro K. now rewrite L2, L1.
Qed.

Lemma steady_ret {A} (a : A) : steady (ret a).
Proof.
  intro pg. apply grows_refl.
Qed.

Lemma steady_throw {A} (e : Exception) : steady (@throw A e).
Proof.
  intro pg. apply grows_refl.
Qed.

Lemma steady_bind {A B} (m : M A) (k : A -> M B) :
  steady m -> (forall a, steady (k a)) -> steady (bind m k).
Proof.
  intros Hm Hk pg. unfold bind. specialize (Hm pg).
  destruct (m pg) as [[a | e] pg1]; simpl in *.
  - eapply grows_trans; [exact Hm | apply Hk].
  - exact Hm.
Qed.

Lemma steady_if {A} (b : bool) (m1 m2 : M A) :
  steady m1 -> steady m2 -> steady (if b then m1 else m2).
Proof.
  now destruct b.
Qed.

Lemma steady_engine_call (c : Player.Call) : steady (engine_call c).
Proof.
  intro pg. unfold engine_call.
  destruct (react c (item pg)) as [r it] eqn:R. simpl. split.
  - now exists [c].
  - intro K. specialize (K c (item pg)). now rewrite R in K.
Qed.

Lemma steady_player_call (p : PlayerValue) (c : Player.Call) : steady (player_call p c).
Proof.
  destruct p; simpl; auto using steady_throw, steady_engine_call, steady_if.
Qed.

Lemma steady_isPaused (p : PlayerValue) : steady (player_isPaused p).
Proof.
  destruct p; simpl; auto using steady_throw, steady_ret; intro pg; apply grows_refl.
Qed.

Lemma steady_totalFrames (p : PlayerValue) : steady (player_totalFrames p).
Proof.
  destruct p; simpl; auto using steady_throw, steady_ret; intro pg; apply grows_refl.
Qed.

Lemma steady_frames_0 (a : Action.t) : steady (frames_0 a).
Proof.
  unfold frames_0. destruct (Action.frames a); auto using steady_throw, steady_ret.
Qed.

End Steady.

Create HintDb steady.
#[export] Hint Resolve steady_ret steady_throw steady_bind steady_if steady_engine_call
  steady_player_call steady_isPaused steady_totalFrames steady_frames_0 : steady.

(* ===================================================================== *)
(** ** Scroll mode *)
(* ===================================================================== *)

(** What follows the [loop] write: the write stays at the head of what
    the tick added to the trace, and the flag stays set with an engine
    that keeps it. *)
Lemma after_loop_write {E : Engine} (m : M unit) (pg : Page) :
  steady m ->
  let pg1 := {| item := Player.with_loop true (item pg);
                trace := trace pg ++ [Player.set_loop true] |} in
  (exists k, trace (snd (m pg1)) = trace pg ++ Player.set_loop true :: k) /\
  (keeps_loop -> Player.loop (item (snd (m pg1))) = true).
Proof.
  intros Hm pg1. destruct (Hm pg1) as [[k Hk] Hl]. split.
  - exists k. rewrite Hk. unfold pg1. simpl. now rewrite <- app_assoc.
  - intro K. now rewrite (Hl K).
Qed.

Lemma scroll_after_sample {E : Engine} (this : LottieInteractivity) (env : Env) (pg : Page)
    (s : Sample) :
  player this = PAnimationItem ->
  boundingBoxUtils this env = Normal (Some s) ->
  (exists k, trace (snd (scrollHandler_body this env pg)) = trace pg ++ Player.set_loop true :: k) /\
  (keeps_loop -> Player.loop (item (snd (scrollHandler_body this env pg))) = true).
Proof.
  intros Hp Hs. unfold scrollHandler_body.
  rewrite (destructure_sample _ _ _ _ _ Hs). rewrite Hp.
  unfold bind at 1. simpl player_set_loop. cbv beta iota.
  apply after_loop_write. auto 10 with steady.
Qed.

(** C2 as the code has it. A scroll tick writes [true] to the player's
    [loop] flag exactly when [boundingBoxUtils] yields a sample, that is
    when the position is inside the viewport window and an action matches;
    the write comes first, whatever the type of that action, and the flag
    is still set at the end with an engine that does not touch it.  A tick
    without a sample (no action matches, or the position is outside the
    window) returns without touching the page, [loop] included. *)
Theorem scroll_loop_needs_sample {E : Engine} (this : LottieInteractivity) (env : Env)
    (pg : Page) :
  player this = PAnimationItem ->
  (forall s,
     boundingBoxUtils this env = Normal (Some s) ->
     fst (scrollHandler this env pg) = Normal tt /\
     (exists k, trace (snd (scrollHandler this env pg)) = trace pg ++ Player.set_loop true :: k) /\
     (keeps_loop -> Player.loop (item (snd (scrollHandler this env pg))) = true)) /\
  ((forall s, boundingBoxUtils this env <> Normal (Some s)) ->
   scrollHandler this env pg = (Normal tt, pg)).
Proof.
  intro Hp. split.
  - intros s Hs. unfold scrollHandler. split; [apply try_catch_completes |].
    rewrite try_catch_page. now apply scroll_after_sample with (s := s).
  - intro Hn. unfold scrollHandler, try_catch.
    destruct (body_no_sample this env Scroll ScrollHandler pg Hn) as [e Hb].
    simpl in Hb. now rewrite Hb.
Qed.

(** The tick of the scroll scenario sets [loop]; the tick of
    [no_match_scenario] leaves the page as it was. *)
Lemma scroll_loop_needs_sample_witness :
  Player.loop (item (snd (scrollHandler (E := inert) scroll_scenario scroll_env (fresh_page 200)))) = true /\
  scrollHandler (E := inert) no_match_scenario no_match_env (fresh_page 200) =
    (Normal tt, fresh_page 200).
Proof.
  split.
  - refine (proj2 (proj2 (proj1 (scroll_loop_needs_sample (E := inert) scroll_scenario scroll_env
                                   (fresh_page 200) eq_refl) _ eq_refl)) _).
    intros c it. reflexivity.
  - apply (proj2 (scroll_loop_needs_sample (E := inert) no_match_scenario no_match_env
                    (fresh_page 200) eq_refl)).
    intros s H. vm_compute in H. discriminate H.
Defined.

(** C2 as the specification states it fails: in the scenario without a
    match ([currentPercent] 0.9, one action ending at 0.3) the scroll
    handler runs to its end, nothing is written to the player and the
    [loop] flag is still false. *)
Lemma scroll_no_match_keeps_loop :
  boundingBoxUtils no_match_scenario no_match_env = Normal None /\
  fst (scrollHandler (E := inert) no_match_scenario no_match_env (fresh_page 200)) = Normal tt /\
  trace (snd (scrollHandler (E := inert) no_match_scenario no_match_env (fresh_page 200))) = [] /\
  Player.loop (item (fresh_page 200)) = false /\
  Player.loop (item (snd (scrollHandler (E := inert) no_match_scenario no_match_env
                            (fresh_page 200)))) = false.
Proof.
  repeat split; vm_compute; reflexivity.
Qed.

(** C5 as the code has it. With a resolved action of type [seek] the
    scroll handler sets [loop], calls [playSegments(frames, true)] and,
    when that call returns, [goToAndStop(frame, true)] with
    [frame = ceil(((currentPercent - start) / (end - start)) * totalFrames)],
    where [currentPercent] is the viewport fraction of the container and
    [totalFrames] is read after [playSegments].  In the scenario of the
    specification (top 100, height 400, viewport 800, range 0.5 to 0.7,
    200 frames) [currentPercent] is 700 / 1200, between 0.583 and 0.584,
    and the frame is 84: the quotient is 83.33..., which [ceil] rounds
    up. *)
Theorem scroll_seek_transition :
  (forall (E : Engine) this env pg s it,
     player this = PAnimationItem ->
     boundingBoxUtils this env = Normal (Some s) ->
     Action.type (action s) = "seek" ->
     react (Player.playSegments (Action.frames (action s)) (Some true))
           (Player.with_loop true (item pg)) = (Normal tt, it) ->
     currentPercent s = (innerHeight env - top (rect env)) / (innerHeight env + height (rect env)) /\
     fst (scrollHandler this env pg) = Normal tt /\
     trace (snd (scrollHandler this env pg)) =
       trace pg ++
       [Player.set_loop true;
        Player.playSegments (Action.frames (action s)) (Some true);
        Player.goToAndStop
          (Some (JS.Math_ceil
                   (((currentPercent s - Action.start (action s))
                     / (Action.end_ (action s) - Action.start (action s)))
                    * Player.totalFrames it)))
          (Some true)]) /\
  (exists s,
     boundingBoxUtils scroll_scenario scroll_env = Normal (Some s) /\
     currentPercent s = 700 / 1200 /\
     JS.lt 0.583 (currentPercent s) = true /\ JS.lt (currentPercent s) 0.584 = true /\
     action s = seek_action) /\
  scrollHandler (E := inert) scroll_scenario scroll_env (fresh_page 200) =
    (Normal tt,
     {| item := Player.with_loop true (paused_item 200);
        trace := [Player.set_loop true;
                  Player.playSegments (Some [0; 100]) (Some true);
                  Player.goToAndStop (Some 84) (Some true)] |}).
Proof.
  split; [| split].
  - intros E this env pg s it Hp Hs Ht Hr. split; [apply (sample_fields _ _ _ Hs) |].
    unfold scrollHandler. split; [apply try_catch_completes |].
    rewrite try_catch_page. unfold scrollHandler_body.
    rewrite (destructure_sample _ _ _ _ _ Hs). rewrite Hp, Ht.
    unfold bind, seek_frame, player_call, engine_call. simpl. rewrite Hr. simpl.
    destruct (react _ it) as [r it']. simpl.
    now rewrite <- !app_assoc.
  - eexists. split; [vm_compute; reflexivity |]. repeat split.
  - vm_compute. reflexivity.
Qed.

(** The general law at the scenario of the specification: the frame is
    84.  On an engine whose [playSegments] makes [totalFrames] the length
    of the range, 100, the same tick goes to frame 42. *)
Lemma scroll_seek_transition_witness :
  trace (snd (scrollHandler (E := inert) scroll_scenario scroll_env (fresh_page 200))) =
    [Player.set_loop true;
     Player.playSegments (Some [0; 100]) (Some true);
     Player.goToAndStop (Some 84) (Some true)] /\
  trace (snd (scrollHandler (E := segmenting) scroll_scenario scroll_env (fresh_page 200))) =
    [Player.set_loop true;
     Player.playSegments (Some [0; 100]) (Some true);
     Player.goToAndStop (Some 42) (Some true)].
Proof.
  split.
  - exact (proj2 (proj2 (proj1 scroll_seek_transition inert scroll_scenario scroll_env
                           (fresh_page 200)
                           {| s_height := 400; s_bottom := 500; currentPercent := 700 / 1200;
                              action := seek_action |}
                           (Player.with_loop true (paused_item 200))
                           eq_refl eq_refl eq_refl eq_refl))).
  - exact (proj2 (proj2 (proj1 scroll_seek_transition segmenting scroll_scenario scroll_env
                           (fresh_page 200)
                           {| s_height := 400; s_bottom := 500; currentPercent := 700 / 1200;
                              action := seek_action |}
                           {| Player.isPaused := false; Player.loop := true;
                              Player.totalFrames := 100; Player.wrapper := RElement div |}
                           eq_refl eq_refl eq_refl eq_refl))).
Defined.

(** C5 as the specification states it fails in its example: the scenario
    calls [goToAndStop(84, true)], and [goToAndStop(83, true)] is not among
    the calls. *)
Lemma scroll_seek_frame_is_not_83 :
  ~ In (Player.goToAndStop (Some 83) (Some true))
       (trace (snd (scrollHandler (E := inert) scroll_scenario scroll_env (fresh_page 200)))).
Proof.
  assert (T : trace (snd (scrollHandler (E := inert) scroll_scenario scroll_env (fresh_page 200))) =
              [Player.set_loop true;
               Player.playSegments (Some [0; 100]) (Some true);
               Player.goToAndStop (Some 84) (Some true)])
    by (vm_compute; reflexivity).
  rewrite T. intros [H | [H | [H | []]]].
  - discriminate H.
  - discriminate H.
  - apply (f_equal (fun c => match c with
                             | Player.goToAndStop (Some v) _ => PrimFloat.eqb v 83
                             | _ => true
                             end)) in H.
    vm_compute in H. discriminate H.
Qed.

(* ===================================================================== *)
(** ** Hover mode *)
(* ===================================================================== *)

(** C6. With a resolved action of type [stop] (and its frames), the enter
    handler calls [goToAndStop(frames[0])] and, when that returns,
    [stop()]; the leave handler with the same resolved action calls
    [playSegments(frames, true)] and nothing else, also when it follows
    the enter: entering halts, leaving sets the range in motion. *)
Theorem hover_stop_asymmetry {E : Engine} (this : LottieInteractivity) (env : Env) (pg : Page)
    (s : Sample) (fs : list JS.number) :
  player this = PAnimationItem ->
  boundingBoxUtils this env = Normal (Some s) ->
  Action.type (action s) = "stop" ->
  Action.frames (action s) = Some fs ->
  fst (react (Player.goToAndStop (nth_error fs 0) None) (item pg)) = Normal tt ->
  fst (hoverStartHandler this env pg) = Normal tt /\
  trace (snd (hoverStartHandler this env pg)) =
    trace pg ++ [Player.goToAndStop (nth_error fs 0) None; Player.stop] /\
  (forall pg',
     fst (hoverEndHandler this env pg') = Normal tt /\
     trace (snd (hoverEndHandler this env pg')) =
       trace pg' ++ [Player.playSegments (Some fs) (Some true)]) /\
  trace (snd (hoverEndHandler this env (snd (hoverStartHandler this env pg)))) =
    trace pg ++ [Player.goToAndStop (nth_error fs 0) None; Player.stop;
                 Player.playSegments (Some fs) (Some true)].
Proof.
  intros Hp Hs Ht Hf Hr.
  assert (Enter : trace (snd (hoverStartHandler this env pg)) =
                  trace pg ++ [Player.goToAndStop (nth_error fs 0) None; Player.stop]).
  { unfold hoverStartHandler. rewrite try_catch_page. unfold hoverStartHandler_body.
    rewrite (destructure_sample _ _ _ _ _ Hs). rewrite Hp, Ht.
    unfold bind, frames_0, player_call, engine_call. rewrite Hf. simpl.
    destruct (react (Player.goToAndStop _ _) (item pg)) as [r it]. simpl in Hr. subst r. simpl.
    destruct (react Player.stop it) as [r' it']. simpl. now rewrite <- app_assoc. }
  assert (Leave : forall pg',
             trace (snd (hoverEndHandler this env pg')) =
             trace pg' ++ [Player.playSegments (Some fs) (Some true)]).
  { intro pg'. unfold hoverEndHandler. rewrite try_catch_page. unfold hoverEndHandler_body.
    rewrite (destructure_sample _ _ _ _ _ Hs). rewrite Hp, Ht, Hf.
    unfold player_call, engine_call. simpl.
    now destruct (react _ (item pg')) as [r it]. }
  split; [apply try_catch_completes |]. split; [exact Enter |]. split.
  - intro pg'. split; [apply try_catch_completes | apply Leave].
  - rewrite Leave, Enter. now rewrite <- app_assoc.
Qed.

(** The hover scenario: enter, then leave. *)
Lemma hover_stop_asymmetry_witness :
  trace (snd (hoverStartHandler (E := inert) hover_scenario scroll_env (fresh_page 200))) =
    [Player.goToAndStop (Some 10) None; Player.stop] /\
  trace (snd (hoverEndHandler (E := inert) hover_scenario scroll_env
                (snd (hoverStartHandler (E := inert) hover_scenario scroll_env (fresh_page 200))))) =
    [Player.goToAndStop (Some 10) None; Player.stop;
     Player.playSegments (Some [10; 40]) (Some true)].
Proof.
  pose proof (hover_stop_asymmetry (E := inert) hover_scenario scroll_env (fresh_page 200)
                {| s_height := 400; s_bottom := 500; currentPercent := 700 / 1200;
                   action := stop_action |}
                [10; 40] eq_refl eq_refl eq_refl eq_refl eq_refl) as H.
  split; [exact (proj1 (proj2 H)) | exact (proj2 (proj2 (proj2 H)))].
Defined.

(* ===================================================================== *)
(** ** Exceptions at the handler boundary *)
(* ===================================================================== *)

(** C3 as the code has it. Every handler, on every input and with every
    engine, returns normally: what its [try] block throws is caught.  The
    page is then as the block left it when it threw.  It is unchanged when
    the block threw for want of a sample (the container is outside the
    window, no action matches, or the container or the actions are
    missing), which is before any effect. *)
Theorem handlers_never_throw {E : Engine} (this : LottieInteractivity) (env : Env) (ev : Event)
    (h : Handler) (pg : Page) :
  fst (invoke this env ev h pg) = Normal tt /\
  snd (invoke this env ev h pg) = snd (body_of this env ev h pg) /\
  ((forall s, boundingBoxUtils this env <> Normal (Some s)) ->
   invoke this env ev h pg = (Normal tt, pg)).
Proof.
  rewrite invoke_try_catch. split; [| split].
  - apply try_catch_completes.
  - apply try_catch_page.
  - intro H. destruct (body_no_sample this env ev h pg H) as [e Hb].
    unfold try_catch. now rewrite Hb.
Qed.

(** Without a match the scroll handler leaves the page as it was. *)
Lemma handlers_never_throw_witness :
  invoke (E := inert) no_match_scenario no_match_env Scroll ScrollHandler (fresh_page 200) =
    (Normal tt, fresh_page 200).
Proof.
  apply (proj2 (proj2 (handlers_never_throw (E := inert) no_match_scenario no_match_env Scroll
                         ScrollHandler (fresh_page 200)))).
  intros s H. vm_compute in H. discriminate H.
Defined.

(** C3 as the specification states it fails: on a [stop] action without
    frames the [try] block of the scroll handler throws a [TypeError] at
    [action.frames[0]], after [loop] was set; the handler returns normally
    and the playback state has changed. *)
Lemma exception_after_loop_write :
  fst (scrollHandler_body (E := inert) malformed_scenario scroll_env (fresh_page 200)) =
    Throw TypeError /\
  fst (scrollHandler (E := inert) malformed_scenario scroll_env (fresh_page 200)) = Normal tt /\
  Player.loop (item (fresh_page 200)) = false /\
  trace (fresh_page 200) = [] /\
  Player.loop (item (snd (scrollHandler (E := inert) malformed_scenario scroll_env
                            (fresh_page 200)))) = true /\
  trace (snd (scrollHandler (E := inert) malformed_scenario scroll_env (fresh_page 200))) =
    [Player.set_loop true].
Proof.
  repeat split; vm_compute; reflexivity.
Qed.

(** An exception of the engine is caught as well: on the engine that
    throws at [playSegments(undefined, true)], the leave handler on a
    [stop] action without frames makes the call and returns normally. *)
Lemma engine_exception_is_caught :
  fst (hoverEndHandler_body (E := segmenting) malformed_scenario scroll_env (fresh_page 200)) =
    Throw TypeError /\
  hoverEndHandler (E := segmenting) malformed_scenario scroll_env (fresh_page 200) =
    (Normal tt,
     {| item := paused_item 200; trace := [Player.playSegments None (Some true)] |}).
Proof.
  split; vm_compute; reflexivity.
Qed.

(* ===================================================================== *)
(** ** Pointer mode *)
(* ===================================================================== *)




(** Without a sample the pointer handler does nothing, wherever the
    pointer is. *)
Lemma pointer_no_sample {E : Engine} (this : LottieInteractivity) (env : Env)
    (mouseEvent : option MouseEvent) (pg : Page) :
  (forall s, boundingBoxUtils this env <> Normal (Some s)) ->
  mousePositionHandler this env mouseEvent pg = (Normal tt, pg).
Proof.
  intro H. unfold mousePositionHandler, try_catch, mousePositionHandler_body, bind.
  destruct (boundingBoxUtils this env) as [[s |] | e]; simpl; try reflexivity.
  now elim (H s).
Qed.

(** C4 as the code has it. In every mode, mouseposition included, the
    [currentPercent] of a sample is
    [(innerHeight - top) / (innerHeight + height)] of the container's box,
    and the action of the sample is the first one whose range contains
    that number.  The pointer takes no part in it: without a sample the
    pointer handler does nothing wherever the pointer is. *)
Theorem sample_is_viewport_fraction {E : Engine} (this : LottieInteractivity) (env : Env) :
  (forall s,
     boundingBoxUtils this env = Normal (Some s) ->
     currentPercent s = (innerHeight env - top (rect env)) / (innerHeight env + height (rect env)) /\
     exists l, actions this = Some l /\ find_action (currentPercent s) l = Some (action s)) /\
  (forall mouseEvent pg,
     (forall s, boundingBoxUtils this env <> Normal (Some s)) ->
     mousePositionHandler this env mouseEvent pg = (Normal tt, pg)).
Proof.
  split.
  - intros s Hs. destruct (sample_fields _ _ _ Hs) as (Hc & _ & _ & Hl & _). auto.
  - intros mouseEvent pg H. now apply pointer_no_sample.
Qed.

(** In the pointer scenario [currentPercent] is 700 / 1000. *)
Lemma sample_is_viewport_fraction_witness :
  exists s,
    boundingBoxUtils pointer_scenario pointer_env = Normal (Some s) /\
    currentPercent s = (800 - 100) / (800 + 200).
Proof.
  eexists. split; [reflexivity |].
  exact (proj1 (proj1 (sample_is_viewport_fraction (E := inert) pointer_scenario pointer_env)
                  _ eq_refl)).
Defined.

(** C4 as the specification states it fails for mouseposition mode: in the
    pointer scenario the pointer is a quarter down the container and a
    tenth across it, both outside the action's range from 0.6 to 0.8, yet
    the sample's [currentPercent] is the viewport fraction 0.7, the action
    is resolved and the seek is made. *)
Lemma pointer_sample_ignores_pointer :
  let p := relative_pointer pointer_env (pageX pointer_event, pageY pointer_event) in
  snd p / height (rect pointer_env) = 0.25 /\
  fst p / width (rect pointer_env) = 0.1 /\
  in_range 0.25 yaxis_action = false /\
  in_range 0.1 yaxis_action = false /\
  (exists s,
     boundingBoxUtils pointer_scenario pointer_env = Normal (Some s) /\
     action s = yaxis_action /\
     currentPercent s = 0.7 /\
     currentPercent s <> snd p / height (rect pointer_env) /\
     currentPercent s <> fst p / width (rect pointer_env)) /\
  trace (snd (mousePositionHandler (E := inert) pointer_scenario pointer_env (Some pointer_event)
                (fresh_page 200))) = [Player.seek "25%"].
Proof.
  cbv zeta. repeat split; try (vm_compute; reflexivity).
  eexists. split; [vm_compute; reflexivity |].
  repeat split; try (vm_compute; reflexivity).
  - apply number_neq; vm_compute; reflexivity.
  - apply number_neq; vm_compute; reflexivity.
Qed.

(* ===================================================================== *)
(** ** Construction *)
(* ===================================================================== *)

Lemma resolve_player_instance (document : Document) (p r : PlayerValue) (pi : ElementRef) :
  resolve_player document p = Normal (r, pi) ->
  pi = RUndefined \/ exists sel, p = PString sel.
Proof.
  unfold resolve_player. destruct p; simpl; intro H.
  all: try solve [right; eexists; reflexivity].
  all: left.
  all: repeat match type of H with
         | context [if ?c then _ else _] => destruct c; simpl in H
         | context [getLottie ?e] => destruct (getLottie e); simpl in H
         end.
  all: try discriminate H.
  all: now injection H as _ <-.
Qed.

(** Without a [playerInstance] the pointer handler changes nothing. *)
Lemma pointer_without_instance {E : Engine} (this : LottieInteractivity) (env : Env)
    (mouseEvent : option MouseEvent) (pg : Page) :
  playerInstance this = RUndefined ->
  mousePositionHandler this env mouseEvent pg = (Normal tt, pg).
Proof.
  intro Hi. unfold mousePositionHandler, try_catch, mousePositionHandler_body, bind.
  destruct (boundingBoxUtils this env) as [[s |] | e]; simpl; try reflexivity.
  unfold pointer.
  destruct mouseEvent as [ev |]; [| destruct (window_event env) as [[x y] |]]; simpl;
    try reflexivity.
  all: destruct (relative_pointer env _) as [xpos ypos].
  all: rewrite Hi.
  all: destruct (Action.type (action s) =? "seek-yaxis"); [reflexivity |].
  all: destruct (Action.type (action s) =? "seek-xaxis"); reflexivity.
Qed.

(** C10. [this.playerInstance] is assigned only on the selector path: an
    instance whose [playerInstance] is not [undefined] was built from a
    string, and an instance built from an animation item or an element
    has it [undefined], whatever the [playerInstance] option said.  On
    such an instance every invocation of the pointer handler returns
    normally and makes no call, a matching [seek-xaxis] or [seek-yaxis]
    action included. *)
Theorem playerInstance_only_from_selector {E : Engine} (document : Document)
    (anim : Player.AnimationItem) (arg : option Options) (this : LottieInteractivity) :
  constructor document anim arg = Normal this ->
  (playerInstance this <> RUndefined -> exists sel, opt_player (argument arg) = PString sel) /\
  ((opt_player (argument arg) = PAnimationItem \/ exists e, opt_player (argument arg) = PElement e) ->
   playerInstance this = RUndefined /\
   forall env mouseEvent pg, mousePositionHandler this env mouseEvent pg = (Normal tt, pg)).
Proof.
  unfold constructor.
  destruct (resolve_player document (opt_player (argument arg))) as [[r pi] |] eqn:R;
    simpl; [| discriminate].
  destruct (resolve_container _ _ _ _) as [c |]; simpl; [| discriminate].
  intros [= <-]. simpl.
  destruct (resolve_player_instance _ _ _ _ R) as [-> | [sel Hsel]].
  - split; [now intros [] |].
    intros _. split; [reflexivity |]. intros. now apply pointer_without_instance.
  - split; [intros _; now exists sel |].
    rewrite Hsel. intros [H | [e H]]; discriminate H.
Qed.

(** Built from the animation item, with the lottie-player element passed
    as the [playerInstance] option, the pointer scenario makes no call. *)
Lemma playerInstance_only_from_selector_witness :
  exists this,
    constructor one_player_document (paused_item 200) (Some (pointer_options PAnimationItem)) =
      Normal this /\
    playerInstance this = RUndefined /\
    boundingBoxUtils this pointer_env =
      Normal (Some {| s_height := 200; s_bottom := 300; currentPercent := 700 / 1000;
                      action := yaxis_action |}) /\
    mousePositionHandler (E := inert) this pointer_env (Some pointer_event) (fresh_page 200) =
      (Normal tt, fresh_page 200).
Proof.
  eexists. split; [reflexivity |].
  pose proof (proj2 (playerInstance_only_from_selector (E := inert) one_player_document
                       (paused_item 200) (Some (pointer_options PAnimationItem)) _ eq_refl)
                (or_introl eq_refl)) as [Hi Hm].
  split; [exact Hi |]. split; [reflexivity |]. apply Hm.
Defined.

(** C9 on the code: the constructor does not throw on a selector that
    resolves to nothing.  For a [player] option that is a non-empty
    selector without a match (and a container that is absent or an
    element) it returns an instance whose [player] is the selector string
    itself and whose [playerInstance] is [null]: the test [!player] sees a
    non-empty string. *)
Theorem unresolved_selector_is_accepted (document : Document) (anim : Player.AnimationItem)
    (o : Options) (sel : string) :
  opt_player o = PString sel ->
  sel <> "" ->
  document sel = NoMatch ->
  (forall c, opt_container o <> CString c) ->
  constructor document anim (Some o) =
    Normal {| player := PString sel;
              container := match opt_container o with
                           | CElement e => RElement e
                           | _ => RUndefined
                           end;
              mode := opt_mode o;
              actions := opt_actions o;
              playerInstance := RNull |}.
Proof.
  intros Hp Hne Hd Hc.
  unfold constructor, argument, resolve_player, querySelector. rewrite Hp. simpl.
  rewrite Hd. simpl.
  destruct (sel =? "") eqn:E; [apply String.eqb_eq in E; contradiction |]. simpl.
  unfold resolve_container.
  destruct (opt_container o) as [| c | e]; simpl; try reflexivity.
  now elim (Hc c).
Qed.

(** [new LottieInteractivity({player: '#missing', ...})] on a page where
    nothing matches ['#missing']. *)
Lemma unresolved_selector_is_accepted_witness :
  constructor one_player_document (paused_item 200) (Some missing_options) =
    Normal {| player := PString "#missing";
              container := RUndefined;
              mode := Some "scroll";
              actions := Some [seek_action];
              playerInstance := RNull |}.
Proof.
  apply (unresolved_selector_is_accepted one_player_document (paused_item 200)
           missing_options "#missing" eq_refl).
  - discriminate.
  - reflexivity.
  - discriminate.
Defined.

(** The one throw of the constructor's own: the resolved player is
    falsy. *)
Lemma constructor_throws_on_unloaded_player :
  constructor one_player_document (paused_item 200)
    (Some (pointer_options (PElement {| nodeName := LOTTIE_PLAYER_NODE; component := Some false |}))) =
    Throw InvalidPlayer /\
  constructor one_player_document (paused_item 200) (Some (pointer_options PUndefined)) =
    Throw InvalidPlayer.
Proof.
  split; reflexivity.
Qed.

(* ===================================================================== *)
(** ** Start and stop *)
(* ===================================================================== *)

Lemma mode_is_inv (this : LottieInteractivity) (m : string) :
  mode_is this m = true -> mode this = Some m.
Proof.
  unfold mode_is. destruct (mode this) as [m' |]; [| discriminate].
  intro H. apply String.eqb_eq in H. now subst.
Qed.

Lemma of_type_removed (type : string) (h : Handler) (l : list Listener) :
  ~ In h (of_type type (removeEventListener l type h)).
Proof.
  unfold of_type, removeEventListener. intro H.
  apply in_map_iff in H. destruct H as ([ty h'] & Hh & Hin). simpl in Hh. subst h'.
  apply filter_In in Hin. destruct Hin as [Hin Hty]. simpl in Hty.
  apply filter_In in Hin. destruct Hin as [_ Hneq].
  unfold listener_eqb in Hneq. simpl in Hneq.
  apply String.eqb_eq in Hty. subst ty. rewrite String.eqb_refl in Hneq.
  now destruct h.
Qed.

Lemma of_type_removed_other (type type' : string) (h h' : Handler) (l : list Listener) :
  ~ In h (of_type type l) -> ~ In h (of_type type (removeEventListener l type' h')).
Proof.
  unfold of_type, removeEventListener. intros H Hin. apply H.
  apply in_map_iff in Hin. destruct Hin as (x & Hx & Hin).
  apply in_map_iff. exists x. split; [assumption |].
  apply filter_In in Hin. destruct Hin as [Hin Hty].
  apply filter_In in Hin. destruct Hin as [Hin _].
  apply filter_In. auto.
Qed.

(** In scroll mode [stop] takes the scroll handler off [window]. *)
Lemma stop_detaches_scroll (this : LottieInteractivity) (t t' : Targets) :
  mode_is this "scroll" = true ->
  stop this t = Normal t' ->
  ~ In ScrollHandler (receivers t' Scroll).
Proof.
  intros Hm. unfold stop, mode_is in *. rewrite (mode_is_inv _ _ Hm). simpl.
  intros [= <-]. simpl. apply of_type_removed.
Qed.

(** In hover mode [stop] takes the two hover handlers off the
    container. *)
Lemma stop_detaches_hover (this : LottieInteractivity) (t t' : Targets) :
  mode_is this "hover" = true ->
  stop this t = Normal t' ->
  ~ In HoverStartHandler (receivers t' MouseEnter) /\
  ~ In HoverEndHandler (receivers t' MouseLeave).
Proof.
  intros Hm. unfold stop, mode_is, on_container in *. rewrite (mode_is_inv _ _ Hm). simpl.
  destruct (container this); try discriminate.
  intros [= <-]. simpl. split.
  - apply of_type_removed_other, of_type_removed.
  - apply of_type_removed.
Qed.

(** C1 on the code: in mouseposition mode [stop] detaches nothing.
    [start] stores the pointer handler in the container's [onmousemove]
    and [stop] has no branch for the mode, so after [start] and [stop] a
    pointer move still reaches the handler: the event is delivered to it
    and to nothing else, and the dispatch does what the handler does. *)
Theorem stop_keeps_onmousemove {E : Engine} (this : LottieInteractivity) (env : Env)
    (t1 t2 : Targets) (ev : MouseEvent) (pg : Page) :
  mode_is this "mouseposition" = true ->
  start this no_listeners = Normal t1 ->
  stop this t1 = Normal t2 ->
  t2 = t1 /\
  container_onmousemove t2 = Some MousePositionHandler /\
  receivers t2 (MouseMove ev) = [MousePositionHandler] /\
  snd (dispatch this env t2 (MouseMove ev) pg) = snd (mousePositionHandler this env (Some ev) pg).
Proof.
  intros Hm. unfold start, stop, mode_is, on_container in *.
  rewrite (mode_is_inv _ _ Hm). simpl.
  destruct (container this); try discriminate.
  intros [= <-] [= <-]. repeat split.
  unfold dispatch. simpl. unfold bind.
  now destruct (mousePositionHandler this env (Some ev) pg) as [[u | e'] pg'].
Qed.

(** The pointer scenario, built by [create] from the selector of the
    lottie-player element: after [stop()] a pointer move still makes the
    player seek. *)
Lemma stop_keeps_onmousemove_witness :
  create one_player_document (paused_item 200)
    (Some (pointer_options (PString "lottie-player"))) no_listeners =
    Normal (pointer_scenario, pointer_targets) /\
  stop pointer_scenario pointer_targets = Normal pointer_targets /\
  receivers pointer_targets (MouseMove pointer_event) = [MousePositionHandler] /\
  trace (snd (dispatch (E := inert) pointer_scenario pointer_env pointer_targets
                (MouseMove pointer_event) (fresh_page 200))) = [Player.seek "25%"].
Proof.
  split; [reflexivity |]. split; [reflexivity |].
  pose proof (stop_keeps_onmousemove (E := inert) pointer_scenario pointer_env pointer_targets
                pointer_targets pointer_event (fresh_page 200) eq_refl eq_refl eq_refl)
    as (_ & _ & Hr & Hd).
  split; [exact Hr |]. exact (eq_trans (f_equal trace Hd) eq_refl).
Defined.

(* ===================================================================== *)
(** ** The order of numbers *)
(* ===================================================================== *)

Lemma SFcompare_antisym (f g : spec_float) (c : comparison) :
  SFcompare f g = Some c -> SFcompare g f = Some (CompOpp c).
Proof.
  destruct f as [s1 | s1 | | s1 m1 e1], g as [s2 | s2 | | s2 m2 e2]; simpl;
    try discriminate; intros [= <-]; f_equal.
  all: try (destruct s1; reflexivity).
  all: try (destruct s2; reflexivity).
  all: try (destruct s1, s2; reflexivity).
  destruct s1, s2; try reflexivity.
  - rewrite (Z.compare_antisym e1 e2).
    destruct (e1 ?= e2)%Z; simpl; try reflexivity.
    change (Pos.compare_cont Eq m2 m1) with (Pos.compare m2 m1).
    change (Pos.compare_cont Eq m1 m2) with (Pos.compare m1 m2).
    now rewrite (Pos.compare_antisym m1 m2).
  - rewrite (Z.compare_antisym e1 e2).
    destruct (e1 ?= e2)%Z; simpl; try reflexivity.
    change (Pos.compare_cont Eq m2 m1) with (Pos.compare m2 m1).
    change (Pos.compare_cont Eq m1 m2) with (Pos.compare m1 m2).
    now rewrite (Pos.compare_antisym m1 m2).
Qed.

Lemma SFcompare_some (f g : spec_float) :
  f <> S754_nan -> g <> S754_nan -> exists c, SFcompare f g = Some c.
Proof.
  destruct f, g; simpl; intros Hf Hg; try (now elim Hf); try (now elim Hg); eauto.
Qed.

(** Of two numbers neither of which is NaN, one that is not below the
    other is at least the other. *)
Lemma not_lt_le (x y : JS.number) :
  JS.le x x = true -> JS.le y y = true -> JS.lt x y = false -> JS.le y x = true.
Proof.
  unfold JS.le, JS.lt. rewrite !leb_spec, ltb_spec. intros Hx Hy.
  destruct (SFleb_not_nan _ _ Hx) as [Nx _]. destruct (SFleb_not_nan _ _ Hy) as [Ny _].
  destruct (SFcompare_some _ _ Nx Ny) as [c Hc].
  unfold SFltb, SFleb. rewrite (SFcompare_antisym _ _ _ Hc), Hc.
  now destruct c.
Qed.

Lemma is_nan_spec (x : JS.number) : PrimFloat.is_nan x = true -> Prim2SF x = S754_nan.
Proof.
  unfold PrimFloat.is_nan. rewrite FloatAxioms.eqb_spec. unfold SFeqb. intro H.
  destruct (Prim2SF x) eqn:P; try reflexivity.
  all: rewrite SFcompare_refl in H; [discriminate H | discriminate].
Qed.

(** NaN is in no order with anything. *)
Lemma nan_unordered (x y : JS.number) :
  PrimFloat.is_nan x = true ->
  JS.le x y = false /\ JS.le y x = false /\ JS.lt x y = false /\ JS.lt y x = false.
Proof.
  intro H. apply is_nan_spec in H. unfold JS.le, JS.lt.
  rewrite !leb_spec, !ltb_spec, H. unfold SFleb, SFltb. simpl.
  now destruct (Prim2SF y).
Qed.

(* ===================================================================== *)
(** ** Sampling *)
(* ===================================================================== *)

(** X1. The window test of [boundingBoxUtils] comes before anything is
    done with the actions: with the container out of the window the
    method returns [undefined] whatever [this.actions] is, a missing list
    included; inside the window a missing list makes it throw; and
    without a container element it throws for every page. *)
Theorem boundingBoxUtils_outcomes (this : LottieInteractivity) (env : Env) :
  let currentPercent :=
    (innerHeight env - top (rect env)) / (innerHeight env + height (rect env)) in
  ((exists e, container this = RElement e) ->
   JS.lt currentPercent 0 || JS.gt currentPercent 1 = true ->
   boundingBoxUtils this env = Normal None) /\
  ((exists e, container this = RElement e) ->
   JS.lt currentPercent 0 || JS.gt currentPercent 1 = false ->
   actions this = None ->
   boundingBoxUtils this env = Throw TypeError) /\
  ((forall e, container this <> RElement e) ->
   boundingBoxUtils this env = Throw TypeError).
Proof.
  cbv zeta. unfold boundingBoxUtils. repeat split.
  - intros [e ->] H. now rewrite H.
  - intros [e ->] H Ha. now rewrite H, Ha.
  - intro H. destruct (container this) as [| | e]; try reflexivity. now elim (H e).
Qed.

(** Below the fold an instance without actions samples nothing; in the
    window it throws. *)
Lemma boundingBoxUtils_outcomes_witness :
  boundingBoxUtils (actionless "scroll") below_env = Normal None /\
  boundingBoxUtils (actionless "scroll") scroll_env = Throw TypeError.
Proof.
  split.
  - apply (proj1 (boundingBoxUtils_outcomes (actionless "scroll") below_env)).
    + now exists div.
    + vm_compute. reflexivity.
  - apply (proj1 (proj2 (boundingBoxUtils_outcomes (actionless "scroll") scroll_env))).
    + now exists div.
    + vm_compute. reflexivity.
    + reflexivity.
Defined.

(** X2. Not-a-number never resolves an action.  When [currentPercent] is
    NaN (a viewport and a container of height 0 give 0 / 0), it passes the
    window test and matches no action, so [boundingBoxUtils] returns
    [undefined]; and an action whose [start] or [end] is NaN is in range
    of no position. *)
Theorem nan_resolves_nothing (this : LottieInteractivity) (env : Env) (l : list Action.t) :
  (forall a cp,
     PrimFloat.is_nan (Action.start a) = true \/ PrimFloat.is_nan (Action.end_ a) = true ->
     in_range cp a = false) /\
  (forall cp, PrimFloat.is_nan cp = true -> find_action cp l = None) /\
  ((exists e, container this = RElement e) ->
   actions this = Some l ->
   PrimFloat.is_nan ((innerHeight env - top (rect env)) / (innerHeight env + height (rect env)))
     = true ->
   boundingBoxUtils this env = Normal None).
Proof.
  assert (R : forall cp, PrimFloat.is_nan cp = true -> find_action cp l = None).
  { intros cp H. apply find_action_none. apply Forall_forall. intros a _.
    destruct (nan_unordered cp (Action.start a) H) as (_ & N & _).
    unfold in_range, JS.ge, JS.le in *. now rewrite N. }
  repeat split.
  - intros a cp [H | H].
    + destruct (nan_unordered _ cp H) as (N & _).
      unfold in_range, JS.ge, JS.le in *. now rewrite N.
    + destruct (nan_unordered _ cp H) as (_ & N & _).
      unfold in_range, JS.ge, JS.le in *. rewrite N. apply andb_false_r.
  - exact R.
  - intros [e He] Ha H. unfold boundingBoxUtils. rewrite He, Ha.
    destruct (nan_unordered _ 0 H) as (_ & _ & N0 & _).
    destruct (nan_unordered _ 1 H) as (_ & _ & _ & N1).
    unfold JS.gt, JS.lt in *. rewrite N0, N1. simpl.
    now rewrite (R _ H).
Qed.

(** On the page of no extent the scroll scenario samples nothing, and
    [unbounded_action] is out of range at 0.5. *)
Lemma nan_resolves_nothing_witness :
  in_range 0.5 unbounded_action = false /\
  boundingBoxUtils scroll_scenario empty_env = Normal None.
Proof.
  pose proof (nan_resolves_nothing scroll_scenario empty_env [seek_action]) as (H1 & _ & H3).
  split.
  - apply H1. left. reflexivity.
  - apply H3; [now exists div | reflexivity | vm_compute; reflexivity].
Defined.

(** X3. What a sample is: its [currentPercent] is a number from 0 to 1,
    both included, its action is one of the configured actions, and the
    action's range contains [currentPercent]. *)
Theorem sample_is_sound (this : LottieInteractivity) (env : Env) (s : Sample) :
  boundingBoxUtils this env = Normal (Some s) ->
  JS.le 0 (currentPercent s) = true /\
  JS.le (currentPercent s) 1 = true /\
  JS.le (Action.start (action s)) (currentPercent s) = true /\
  JS.le (currentPercent s) (Action.end_ (action s)) = true /\
  exists l, actions this = Some l /\ In (action s) l.
Proof.
  intro Hs. destruct (sample_fields _ _ _ Hs) as (_ & _ & _ & (l & Hl & Hf) & H0 & H1).
  apply find_some in Hf. destruct Hf as [Hin Hr].
  unfold in_range, JS.ge in Hr. apply andb_true_iff in Hr. destruct Hr as [Hr1 Hr2].
  destruct (le_refl_of_le _ _ Hr1) as [_ Hc].
  repeat split; try assumption.
  - apply not_lt_le; [exact Hc | reflexivity | exact H0].
  - apply not_lt_le; [reflexivity | exact Hc | exact H1].
  - now exists l.
Qed.

(** The sample of the scroll scenario. *)
Lemma sample_is_sound_witness :
  JS.le 0 (700 / 1200) = true /\ JS.le (700 / 1200) 1 = true /\
  JS.le 0.5 (700 / 1200) = true /\ JS.le (700 / 1200) 0.7 = true.
Proof.
  pose proof (sample_is_sound scroll_scenario scroll_env
                {| s_height := 400; s_bottom := 500; currentPercent := 700 / 1200;
                   action := seek_action |} eq_refl) as (H1 & H2 & H3 & H4 & _).
  exact (conj H1 (conj H2 (conj H3 H4))).
Defined.

(* ===================================================================== *)
(** ** Listener lists *)
(* ===================================================================== *)

Lemma add_registered (l : list Listener) (type : string) (h : Handler) :
  registered l type h = true -> addEventListener l type h = l.
Proof.
  unfold registered, addEventListener. now intros ->.
Qed.

Lemma listener_eqb_refl (x : Listener) : listener_eqb x x = true.
Proof.
  unfold listener_eqb. rewrite String.eqb_refl. now destruct (snd x).
Qed.

Lemma registered_add (l : list Listener) (type : string) (h : Handler) :
  registered (addEventListener l type h) type h = true.
Proof.
  unfold registered, addEventListener.
  destruct (existsb _ l) eqn:E; [exact E |].
  rewrite existsb_app. simpl. rewrite listener_eqb_refl. now rewrite orb_true_r.
Qed.

Lemma registered_add_other (l : list Listener) (type type' : string) (h h' : Handler) :
  registered l type h = true -> registered (addEventListener l type' h') type h = true.
Proof.
  unfold registered, addEventListener. intro H.
  destruct (existsb (listener_eqb (type', h')) l); [exact H |].
  rewrite existsb_app. now rewrite H.
Qed.

Lemma remove_unregistered (l : list Listener) (type : string) (h : Handler) :
  registered l type h = false -> removeEventListener l type h = l.
Proof.
  unfold registered, removeEventListener. induction l as [| x l IH]; simpl; [reflexivity |].
  intro H. apply orb_false_iff in H. destruct H as [Hx Hl].
  rewrite Hx. simpl. now rewrite IH.
Qed.

Lemma remove_add (l : list Listener) (type : string) (h : Handler) :
  registered l type h = false ->
  removeEventListener (addEventListener l type h) type h = l.
Proof.
  intro H. unfold addEventListener. unfold registered in H. rewrite H.
  unfold removeEventListener. rewrite filter_app. simpl. rewrite listener_eqb_refl. simpl.
  rewrite app_nil_r. now apply remove_unregistered.
Qed.

Lemma hover_round_trip (c : list Listener) :
  registered c "mouseenter" HoverStartHandler = false ->
  registered c "mouseleave" HoverEndHandler = false ->
  removeEventListener
    (removeEventListener
       (addEventListener (addEventListener c "mouseenter" HoverStartHandler)
          "mouseleave" HoverEndHandler)
       "mouseenter" HoverStartHandler)
    "mouseleave" HoverEndHandler = c.
Proof.
  intros He Hl.
  assert (A : addEventListener (addEventListener c "mouseenter" HoverStartHandler)
                "mouseleave" HoverEndHandler =
              c ++ [("mouseenter", HoverStartHandler); ("mouseleave", HoverEndHandler)]).
  { unfold addEventListener at 2. unfold registered in He. rewrite He.
    unfold addEventListener. rewrite existsb_app. unfold registered in Hl. rewrite Hl. simpl.
    now rewrite <- app_assoc. }
  rewrite A. unfold removeEventListener at 2. rewrite filter_app. simpl.
  fold (removeEventListener c "mouseenter" HoverStartHandler).
  rewrite (remove_unregistered _ _ _ He).
  unfold removeEventListener. rewrite filter_app. simpl.
  fold (removeEventListener c "mouseleave" HoverEndHandler).
  rewrite (remove_unregistered _ _ _ Hl). apply app_nil_r.
Qed.

(* ===================================================================== *)
(** ** Start, stop and dispatch *)
(* ===================================================================== *)

(** X4. [start] twice is [start] once: a listener that is registered is
    not registered again, and [onmousemove] is set to the same handler, so
    no event reaches a handler twice. *)
Theorem start_is_idempotent (this : LottieInteractivity) (t t1 : Targets) :
  start this t = Normal t1 -> start this t1 = Normal t1.
Proof.
  unfold start, on_container.
  destruct (mode_is this "scroll"), (mode_is this "hover"), (mode_is this "mouseposition"),
    (container this); simpl; try discriminate; intros [= <-]; simpl.
  all: repeat (rewrite (add_registered _ _ _ (registered_add _ _ _))
               || rewrite (add_registered _ "mouseenter" HoverStartHandler
                             (registered_add_other _ _ _ _ _ (registered_add _ _ _)))).
  all: try reflexivity.
  all: now destruct t.
Qed.

(** After a second [start] a scroll event still reaches the scroll handler
    once. *)
Lemma start_is_idempotent_witness :
  exists t1,
    start scroll_scenario no_listeners = Normal t1 /\
    start scroll_scenario t1 = Normal t1 /\
    receivers t1 Scroll = [ScrollHandler].
Proof.
  eexists. split; [reflexivity |].
  split; [| reflexivity].
  exact (start_is_idempotent scroll_scenario no_listeners _ eq_refl).
Defined.

Lemma start_stop_round_trip (this : LottieInteractivity) (t t1 : Targets) :
  mode_is this "mouseposition" = false ->
  registered (window_listeners t) "scroll" ScrollHandler = false ->
  registered (container_listeners t) "mouseenter" HoverStartHandler = false ->
  registered (container_listeners t) "mouseleave" HoverEndHandler = false ->
  start this t = Normal t1 ->
  stop this t1 = Normal t.
Proof.
  intros Hm Hs He Hl. unfold start, stop, on_container. rewrite Hm.
  destruct t as [w c o]. simpl in *.
  destruct (mode_is this "scroll"), (mode_is this "hover"), (container this);
    simpl; try discriminate; intros [= <-]; simpl.
  all: rewrite ?(remove_add _ _ _ Hs), ?(hover_round_trip _ He Hl).
  all: reflexivity.
Qed.

(** X5. In scroll and in hover mode [stop] undoes [start]: on targets
    where the handlers of the mode were not registered, [start] followed
    by [stop] gives the targets back as they were, other listeners
    included. *)
Theorem stop_undoes_start (this : LottieInteractivity) (t t1 : Targets) :
  mode_is this "mouseposition" = false ->
  registered (window_listeners t) "scroll" ScrollHandler = false ->
  registered (container_listeners t) "mouseenter" HoverStartHandler = false ->
  registered (container_listeners t) "mouseleave" HoverEndHandler = false ->
  start this t = Normal t1 ->
  stop this t1 = Normal t.
Proof.
  exact (start_stop_round_trip this t t1).
Qed.

(** The hover scenario on a page with listeners of its own. *)
Lemma stop_undoes_start_witness :
  exists t1,
    start hover_scenario busy_targets = Normal t1 /\
    receivers t1 MouseEnter = [HoverStartHandler] /\
    stop hover_scenario t1 = Normal busy_targets.
Proof.
  eexists. split; [reflexivity |]. split; [reflexivity |].
  exact (stop_undoes_start hover_scenario busy_targets _ eq_refl eq_refl eq_refl eq_refl eq_refl).
Defined.

(** X6. On a page without listeners [start] attaches the listeners of
    the configured mode and no other: a scroll event reaches the scroll
    handler in scroll mode only, pointer enter and leave reach the two
    hover handlers in hover mode only, a pointer move reaches the pointer
    handler in mouseposition mode only, and each of them once. *)
Theorem start_attaches_the_mode (this : LottieInteractivity) (t : Targets) (ev : Event) :
  start this no_listeners = Normal t ->
  receivers t ev = attached this ev.
Proof.
  unfold start, on_container, attached.
  destruct (mode_is this "scroll"), (mode_is this "hover"), (mode_is this "mouseposition"),
    (container this); simpl; try discriminate; intros [= <-]; now destruct ev.
Qed.

(** In the hover scenario: enter and leave are attached, scroll is not. *)
Lemma start_attaches_the_mode_witness :
  exists t,
    start hover_scenario no_listeners = Normal t /\
    receivers t MouseEnter = [HoverStartHandler] /\
    receivers t MouseLeave = [HoverEndHandler] /\
    receivers t Scroll = [] /\
    receivers t (MouseMove pointer_event) = [].
Proof.
  eexists. split; [reflexivity |].
  split; [| split; [| split]].
  all: exact (start_attaches_the_mode hover_scenario _ _ eq_refl).
Defined.

(** X7. [start] and [stop] reach for [this.container] in hover mode, and
    [start] in mouseposition mode: on an instance whose container did not
    resolve to an element they throw a [TypeError] there, and so does
    [create], whose constructor accepted the options.  In scroll mode
    alone the container is not needed. *)
Theorem start_needs_the_container (this : LottieInteractivity) (t : Targets) :
  (forall e, container this <> RElement e) ->
  (mode_is this "hover" = true ->
   start this t = Throw TypeError /\ stop this t = Throw TypeError) /\
  (mode_is this "hover" = false -> mode_is this "mouseposition" = true ->
   start this t = Throw TypeError) /\
  (mode_is this "hover" = false -> mode_is this "mouseposition" = false ->
   exists t1 t2, start this t = Normal t1 /\ stop this t = Normal t2) /\
  (forall document anim arg,
     constructor document anim arg = Normal this ->
     mode_is this "hover" = true \/ mode_is this "mouseposition" = true ->
     create document anim arg t = Throw TypeError).
Proof.
  intro Hc.
  assert (C : forall A (a : A), on_container this a = Throw TypeError).
  { intros A a. unfold on_container. destruct (container this) as [| | e]; try reflexivity.
    now elim (Hc e). }
  assert (S : mode_is this "hover" = true \/ mode_is this "mouseposition" = true ->
              start this t = Throw TypeError).
  { unfold start. intros [H | H]; rewrite H.
    - now rewrite C.
    - destruct (mode_is this "hover"); simpl; rewrite ?C; reflexivity. }
  repeat split.
  - apply S. now left.
  - unfold stop. rewrite H. apply C.
  - intros H1 H2. apply S. now right.
  - intros H1 H2. unfold start, stop. rewrite H1, H2. simpl. eauto.
  - intros document anim arg Hk Hm. unfold create. rewrite Hk. simpl. now rewrite (S Hm).
Qed.

(** The selector that matches nothing, in hover mode: the constructor
    returns an instance without a container, and [create] throws. *)
Lemma start_needs_the_container_witness :
  exists this,
    constructor one_player_document (paused_item 200) (Some missing_hover_options) = Normal this /\
    container this = RUndefined /\
    create one_player_document (paused_item 200) (Some missing_hover_options) no_listeners =
      Throw TypeError.
Proof.
  eexists. split; [reflexivity |]. split; [reflexivity |].
  refine (proj2 (proj2 (proj2 (start_needs_the_container _ no_listeners _)))
            one_player_document (paused_item 200) (Some missing_hover_options) eq_refl
            (or_introl eq_refl)).
  intros e H. discriminate H.
Defined.

(** X8. A mode that is none of ['scroll'], ['hover'] and
    ['mouseposition'] (a missing mode among them) is accepted and does
    nothing: [start] and [stop] return with the targets untouched, so no
    event ever reaches a handler of the instance. *)
Theorem unknown_mode_attaches_nothing (this : LottieInteractivity) (t : Targets) :
  mode_is this "scroll" = false ->
  mode_is this "hover" = false ->
  mode_is this "mouseposition" = false ->
  start this t = Normal t /\ stop this t = Normal t /\
  forall ev, attached this ev = [].
Proof.
  intros H1 H2 H3. unfold start, stop, attached. rewrite H1, H2, H3. simpl.
  repeat split. now intros [].
Qed.

(** [new LottieInteractivity()] has no mode. *)
Lemma unknown_mode_attaches_nothing_witness :
  constructor one_player_document (paused_item 200) None = Normal default_instance /\
  start default_instance busy_targets = Normal busy_targets /\
  stop default_instance busy_targets = Normal busy_targets.
Proof.
  split; [reflexivity |].
  pose proof (unknown_mode_attaches_nothing default_instance busy_targets
                eq_refl eq_refl eq_refl) as (H1 & H2 & _).
  split; [exact H1 | exact H2].
Defined.

Lemma invoke_completes {E : Engine} (this : LottieInteractivity) (env : Env) (ev : Event)
    (h : Handler) (pg : Page) :
  exists pg', invoke this env ev h pg = (Normal tt, pg').
Proof.
  rewrite invoke_try_catch. unfold try_catch.
  destruct (body_of this env ev h pg) as [[[] | e] pg']; eauto.
Qed.

Lemma invoke_all_completes {E : Engine} (this : LottieInteractivity) (env : Env) (ev : Event)
    (hs : list Handler) (pg : Page) :
  fst (invoke_all this env ev hs pg) = Normal tt.
Proof.
  revert pg. induction hs as [| h hs IH]; intro pg; simpl; [reflexivity |].
  unfold bind. destruct (invoke_completes this env ev h pg) as [pg' ->]. apply IH.
Qed.

(** X9. The host never sees an exception: dispatching any event to any
    set of registered handlers, on any page and with any engine, returns
    normally, however many handlers run and whatever they meet. *)
Theorem dispatch_never_throws {E : Engine} (this : LottieInteractivity) (env : Env)
    (t : Targets) (ev : Event) (pg : Page) :
  fst (dispatch this env t ev pg) = Normal tt.
Proof.
  apply invoke_all_completes.
Qed.

(** X10. In scroll and in hover mode [stop] silences the instance: after
    [start] and [stop] on a page without listeners, no event of any kind
    changes the page. *)
Theorem stop_silences_scroll_and_hover {E : Engine} (this : LottieInteractivity) (env : Env)
    (t1 t2 : Targets) (ev : Event) (pg : Page) :
  mode_is this "mouseposition" = false ->
  start this no_listeners = Normal t1 ->
  stop this t1 = Normal t2 ->
  t2 = no_listeners /\
  receivers t2 ev = [] /\
  dispatch this env t2 ev pg = (Normal tt, pg).
Proof.
  intros Hm Hs Hp.
  assert (T : t2 = no_listeners).
  { rewrite (start_stop_round_trip this no_listeners t1 Hm eq_refl eq_refl eq_refl Hs) in Hp.
    now injection Hp as <-. }
  subst t2. repeat split; now destruct ev.
Qed.

(** The scroll scenario after [start()] and [stop()]: a scroll tick does
    nothing. *)
Lemma stop_silences_scroll_and_hover_witness :
  exists t1,
    start scroll_scenario no_listeners = Normal t1 /\
    trace (snd (dispatch (E := inert) scroll_scenario scroll_env t1 Scroll (fresh_page 200))) =
      [Player.set_loop true;
       Player.playSegments (Some [0; 100]) (Some true);
       Player.goToAndStop (Some 84) (Some true)] /\
    stop scroll_scenario t1 = Normal no_listeners /\
    dispatch (E := inert) scroll_scenario scroll_env no_listeners Scroll (fresh_page 200) =
      (Normal tt, fresh_page 200).
Proof.
  eexists. split; [reflexivity |]. split; [vm_compute; reflexivity |].
  split; [reflexivity |].
  exact (proj2 (proj2 (stop_silences_scroll_and_hover (E := inert) scroll_scenario scroll_env
                         _ no_listeners Scroll (fresh_page 200) eq_refl eq_refl eq_refl))).
Defined.

(* ===================================================================== *)
(** ** What the constructor resolves *)
(* ===================================================================== *)

Lemma resolve_player_result (document : Document) (p r : PlayerValue) (pi : ElementRef) :
  resolve_player document p = Normal (r, pi) ->
  truthy r = true /\ (r = PAnimationItem \/ r = p).
Proof.
  unfold resolve_player, querySelector, getLottie. destruct p; simpl.
  all: repeat match goal with
         | |- context [match ?d ?s with Invalid => _ | NoMatch => _ | Match _ => _ end] =>
             destruct (d s); simpl
         | |- context [nodeName ?e =? LOTTIE_PLAYER_NODE] =>
             destruct (nodeName e =? LOTTIE_PLAYER_NODE); simpl
         | |- context [component ?e] => destruct (component e) as [[|] |]; simpl
         | |- context [if ?c then _ else _] => destruct c eqn:?; simpl
         end.
  all: intro H; try discriminate H.
  all: injection H as <- <-; simpl; auto.
  all: match goal with
       | T : negb _ = false |- _ => apply negb_false_iff in T; simpl in T; auto
       end.
Qed.

(** X11. Every instance has a truthy player, which is the animation item
    or the very value of the [player] option (a selector string or an
    element that did not lead to a lottie-player among them); the mode and
    the actions are those of the argument. *)
Theorem constructed_player (document : Document) (anim : Player.AnimationItem)
    (arg : option Options) (this : LottieInteractivity) :
  constructor document anim arg = Normal this ->
  truthy (player this) = true /\
  (player this = PAnimationItem \/ player this = opt_player (argument arg)) /\
  mode this = opt_mode (argument arg) /\
  actions this = opt_actions (argument arg).
Proof.
  unfold constructor.
  destruct (resolve_player document (opt_player (argument arg))) as [[r pi] |] eqn:R;
    simpl; [| discriminate].
  destruct (resolve_container _ _ _ _) as [c |]; simpl; [| discriminate].
  intros [= <-]. simpl.
  destruct (resolve_player_result _ _ _ _ R). auto.
Qed.

(** The instance built from the selector that matches nothing keeps the
    selector as its player. *)
Lemma constructed_player_witness :
  exists this,
    constructor one_player_document (paused_item 200) (Some missing_options) = Normal this /\
    truthy (player this) = true /\
    player this = PString "#missing".
Proof.
  eexists. split; [reflexivity |].
  pose proof (constructed_player one_player_document (paused_item 200) (Some missing_options)
                _ eq_refl) as (H & _).
  split; [exact H | reflexivity].
Defined.

(** X12. A lottie-player element, given itself or found by a selector,
    stands for its animation item: when the item is loaded the instance's
    player is the item (and [playerInstance] is the element on the
    selector path only); when [getLottie()] returns nothing the
    constructor throws its own error; and on an element named
    LOTTIE-PLAYER that has no [getLottie] it throws a [TypeError]. *)
Theorem lottie_player_resolution (document : Document) (anim : Player.AnimationItem)
    (o : Options) (e : Element) (by_selector : bool) :
  nodeName e = LOTTIE_PLAYER_NODE ->
  (if by_selector
   then exists sel, opt_player o = PString sel /\ document sel = Match e
   else opt_player o = PElement e) ->
  (component e = Some false -> constructor document anim (Some o) = Throw InvalidPlayer) /\
  (component e = None -> constructor document anim (Some o) = Throw TypeError) /\
  (component e = Some true ->
   forall c,
     resolve_container document anim (opt_container o) PAnimationItem = Normal c ->
     constructor document anim (Some o) =
       Normal {| player := PAnimationItem;
                 container := c;
                 mode := opt_mode o;
                 actions := opt_actions o;
                 playerInstance := if by_selector then RElement e else RUndefined |}).
Proof.
  intros Hn Hp.
  assert (R : resolve_player document (opt_player o) =
              cbind (getLottie e)
                (fun l => if negb (truthy l) then Throw InvalidPlayer
                          else Normal (l, if by_selector then RElement e else RUndefined))).
  { unfold resolve_player. destruct by_selector.
    - destruct Hp as (sel & -> & Hd). simpl. unfold querySelector. rewrite Hd. simpl.
      rewrite Hn. simpl. now destruct (getLottie e).
    - rewrite Hp. simpl. rewrite Hn. simpl. now destruct (getLottie e). }
  unfold constructor, argument. rewrite R. unfold getLottie.
  repeat split.
  - now intros ->.
  - now intros ->.
  - intros -> c Hc. simpl. now rewrite Hc.
Qed.

(** The loaded element by its selector, and an element that is not loaded
    yet. *)
Lemma lottie_player_resolution_witness :
  constructor one_player_document (paused_item 200)
    (Some (pointer_options (PString "lottie-player"))) = Normal pointer_scenario /\
  constructor one_player_document (paused_item 200)
    (Some (pointer_options
             (PElement {| nodeName := LOTTIE_PLAYER_NODE; component := Some false |}))) =
    Throw InvalidPlayer.
Proof.
  split.
  - refine (proj2 (proj2 (lottie_player_resolution one_player_document (paused_item 200)
                            (pointer_options (PString "lottie-player")) lottie_player true
                            eq_refl _)) eq_refl (RElement div) eq_refl).
    exists "lottie-player". split; reflexivity.
  - exact (proj1 (lottie_player_resolution one_player_document (paused_item 200)
                    (pointer_options
                       (PElement {| nodeName := LOTTIE_PLAYER_NODE; component := Some false |}))
                    {| nodeName := LOTTIE_PLAYER_NODE; component := Some false |} false
                    eq_refl eq_refl) eq_refl).
Defined.

(** X13. The failures of the constructor that do not depend on the page:
    [null] as the player throws a [TypeError] (it is an object, and
    reading its constructor fails) and not the constructor's own error; a
    falsy player that is neither [null] nor a string ([undefined], which
    an argument without [player] gives, [false], 0, NaN) throws that
    error; and a selector the document rejects, for the player or, with
    the animation item as the player, for the container, throws the
    document's [SyntaxError]. *)
Theorem constructor_failures (document : Document) (anim : Player.AnimationItem) (o : Options) :
  (opt_player o = PNull -> constructor document anim (Some o) = Throw TypeError) /\
  (truthy (opt_player o) = false ->
   opt_player o <> PNull -> (forall s, opt_player o <> PString s) ->
   constructor document anim (Some o) = Throw InvalidPlayer) /\
  (forall sel, opt_player o = PString sel -> document sel = Invalid ->
   constructor document anim (Some o) = Throw SyntaxError) /\
  (forall sel, opt_player o = PAnimationItem -> opt_container o = CString sel ->
   document sel = Invalid ->
   constructor document anim (Some o) = Throw SyntaxError).
Proof.
  unfold constructor, argument, resolve_player. repeat split.
  - now intros ->.
  - intros Ht Hn Hs. destruct (opt_player o) as [| | b | x | s | | e | f]; simpl in *;
      try discriminate Ht; try reflexivity.
    + now elim Hn.
    + now rewrite Ht.
    + now rewrite Ht.
    + now elim (Hs s).
  - intros sel -> Hd. simpl. unfold querySelector. now rewrite Hd.
  - intros sel -> Hc Hd. simpl. unfold resolve_container, querySelector. now rewrite Hc, Hd.
Qed.

(** An argument without a player, and one with [null]. *)
Lemma constructor_failures_witness :
  constructor one_player_document (paused_item 200) (Some (pointer_options PUndefined)) =
    Throw InvalidPlayer /\
  constructor one_player_document (paused_item 200) (Some (pointer_options PNull)) =
    Throw TypeError.
Proof.
  split.
  - apply (proj1 (proj2 (constructor_failures one_player_document (paused_item 200)
                           (pointer_options PUndefined)))); [reflexivity | discriminate |].
    intros s H. discriminate H.
  - exact (proj1 (constructor_failures one_player_document (paused_item 200)
                    (pointer_options PNull)) eq_refl).
Defined.

(** X14. The container of an instance is the element given, or the
    match of the selector given; with no container option, or with a
    selector that matches nothing, it is [player.wrapper] of the resolved
    player: the [wrapper] property of the player object when the player
    is an object (the animation item or any other), and [undefined] when
    it is a primitive (a selector string, a number, [true]). *)
Theorem constructed_container (document : Document) (anim : Player.AnimationItem)
    (arg : option Options) (this : LottieInteractivity) :
  constructor document anim arg = Normal this ->
  container this =
    match opt_container (argument arg) with
    | CElement e => RElement e
    | CString sel =>
        match document sel with
        | Match e => RElement e
        | _ => player_wrapper anim (player this)
        end
    | CUndefined => player_wrapper anim (player this)
    end /\
  match player this with
  | PAnimationItem | PObject _ => player_wrapper anim (player this) = Player.wrapper anim
  | PString _ | PNumber _ | PBoolean _ => player_wrapper anim (player this) = RUndefined
  | _ => True
  end.
Proof.
  unfold constructor.
  destruct (resolve_player document (opt_player (argument arg))) as [[r pi] |] eqn:R;
    simpl; [| discriminate].
  unfold resolve_container, querySelector.
  destruct (opt_container (argument arg)) as [| sel | e]; simpl.
  - intros [= <-]. simpl. split; [reflexivity |]. now destruct r.
  - destruct (document sel); simpl; try discriminate; intros [= <-]; simpl.
    all: split; [reflexivity |]; now destruct r.
  - intros [= <-]. simpl. split; [reflexivity |]. now destruct r.
Qed.

(** Without a container option the selector string that matched nothing
    leaves the container [undefined], and an object that is no animation
    item gives its wrapper. *)
Lemma constructed_container_witness :
  (exists this,
     constructor one_player_document (paused_item 200) (Some missing_options) = Normal this /\
     container this = RUndefined) /\
  (exists this,
     constructor one_player_document (paused_item 200)
       (Some {| opt_actions := Some [seek_action]; opt_container := CUndefined;
                opt_mode := Some "scroll"; opt_player := PObject duck;
                opt_playerInstance := RUndefined |}) = Normal this /\
     container this = RElement div).
Proof.
  split.
  - eexists. split; [reflexivity |].
    exact (proj1 (constructed_container one_player_document (paused_item 200)
                    (Some missing_options) _ eq_refl)).
  - eexists. split; [reflexivity |].
    exact (proj1 (constructed_container one_player_document (paused_item 200)
                    (Some {| opt_actions := Some [seek_action]; opt_container := CUndefined;
                             opt_mode := Some "scroll"; opt_player := PObject duck;
                             opt_playerInstance := RUndefined |}) _ eq_refl)).
Defined.

(* ===================================================================== *)
(** ** Instances that do nothing *)
(* ===================================================================== *)

Lemma invoke_no_sample {E : Engine} (this : LottieInteractivity) (env : Env) (ev : Event)
    (h : Handler) (pg : Page) :
  (forall s, boundingBoxUtils this env <> Normal (Some s)) ->
  invoke this env ev h pg = (Normal tt, pg).
Proof.
  intro H. rewrite invoke_try_catch. unfold try_catch.
  destruct (body_no_sample this env ev h pg H) as [e ->]. reflexivity.
Qed.

Lemma invoke_all_no_sample {E : Engine} (this : LottieInteractivity) (env : Env) (ev : Event)
    (hs : list Handler) (pg : Page) :
  (forall s, boundingBoxUtils this env <> Normal (Some s)) ->
  invoke_all this env ev hs pg = (Normal tt, pg).
Proof.
  intro H. induction hs as [| h hs IH]; simpl; [reflexivity |].
  unfold bind. now rewrite (invoke_no_sample this env ev h pg H).
Qed.

(** X15. An instance without actions to choose from, or without a
    container, never acts: when [actions] is missing or empty, or the
    container is no element, every handler on every page and event returns
    normally and leaves the page as it was, and so does every dispatch. *)
Theorem nothing_to_resolve {E : Engine} (this : LottieInteractivity) (env : Env) (ev : Event)
    (pg : Page) :
  actions this = None \/ actions this = Some [] \/ (forall e, container this <> RElement e) ->
  (forall h, invoke this env ev h pg = (Normal tt, pg)) /\
  (forall t, dispatch this env t ev pg = (Normal tt, pg)).
Proof.
  intro H.
  assert (N : forall s, boundingBoxUtils this env <> Normal (Some s)).
  { intros s Hs. destruct (sample_fields _ _ _ Hs) as (_ & _ & _ & (l & Hl & Hf) & _).
    destruct H as [H | [H | H]].
    - congruence.
    - rewrite H in Hl. injection Hl as <-. discriminate Hf.
    - unfold boundingBoxUtils in Hs. destruct (container this) as [| | e]; try discriminate Hs.
      now elim (H e). }
  split.
  - intro h. now apply invoke_no_sample.
  - intro t. unfold dispatch. now apply invoke_all_no_sample.
Qed.

(** [new LottieInteractivity()] has no actions: a scroll tick in the
    window does nothing. *)
Lemma nothing_to_resolve_witness :
  invoke (E := inert) default_instance scroll_env Scroll ScrollHandler (fresh_page 200) =
    (Normal tt, fresh_page 200).
Proof.
  exact (proj1 (nothing_to_resolve (E := inert) default_instance scroll_env Scroll (fresh_page 200)
                  (or_introl eq_refl)) ScrollHandler).
Defined.

(** X16. The player is taken as it comes.  When [this.player] is a
    primitive the constructor let through (the selector string of a lookup
    that found no lottie-player, a number, [true]), the scroll handler and
    the two hover handlers return normally and leave the page as it was,
    whatever action is resolved: a property cannot be set on a primitive
    and it has none of the methods.  When it is an object that is no
    animation item but has the five methods, the three handlers drive it
    exactly as they drive the animation item. *)
Theorem player_is_duck_typed {E : Engine} (this : LottieInteractivity) (env : Env)
    (pg : Page) :
  ((exists s, player this = PString s) \/ (exists x, player this = PNumber x) \/
   (exists b, player this = PBoolean b) ->
   scrollHandler this env pg = (Normal tt, pg) /\
   hoverStartHandler this env pg = (Normal tt, pg) /\
   hoverEndHandler this env pg = (Normal tt, pg)) /\
  (forall o,
     player this = PObject o ->
     has_playSegments o = true -> has_resetSegments o = true -> has_stop o = true ->
     has_play o = true -> has_goToAndStop o = true ->
     scrollHandler this env pg = scrollHandler (with_player PAnimationItem this) env pg /\
     hoverStartHandler this env pg = hoverStartHandler (with_player PAnimationItem this) env pg /\
     hoverEndHandler this env pg = hoverEndHandler (with_player PAnimationItem this) env pg).
Proof.
  split.
  - intro Hp.
    unfold scrollHandler, hoverStartHandler, hoverEndHandler, try_catch,
      scrollHandler_body, hoverStartHandler_body, hoverEndHandler_body, bind.
    destruct (boundingBoxUtils this env) as [[s |] | e]; simpl; auto.
    unfold frames_0.
    destruct Hp as [[x ->] | [[x ->] | [x ->]]]; simpl.
    all: destruct (Action.type (action s) =? "seek"); simpl.
    all: destruct (Action.type (action s) =? "loop"); simpl.
    all: destruct (Action.type (action s) =? "play"); simpl.
    all: destruct (Action.type (action s) =? "stop"); simpl.
    all: destruct (Action.frames (action s)); simpl.
    all: auto.
  - intros o Hp H1 H2 H3 H4 H5.
    unfold scrollHandler, hoverStartHandler, hoverEndHandler,
      scrollHandler_body, hoverStartHandler_body, hoverEndHandler_body, player_call.
    change (boundingBoxUtils (with_player PAnimationItem this) env)
      with (boundingBoxUtils this env).
    rewrite Hp. simpl. rewrite H1, H2, H3, H4, H5. auto.
Qed.

(** The scroll scenario with a selector string for a player, and with an
    object that has the methods. *)
Lemma player_is_duck_typed_witness :
  scrollHandler (E := inert) (with_player (PString "#missing") scroll_scenario) scroll_env
    (fresh_page 200) = (Normal tt, fresh_page 200) /\
  trace (snd (scrollHandler (E := inert) (with_player (PObject duck) scroll_scenario) scroll_env
                (fresh_page 200))) =
    [Player.set_loop true;
     Player.playSegments (Some [0; 100]) (Some true);
     Player.goToAndStop (Some 84) (Some true)].
Proof.
  split.
  - apply (proj1 (player_is_duck_typed (E := inert)
                    (with_player (PString "#missing") scroll_scenario) scroll_env
                    (fresh_page 200))).
    left. now exists "#missing".
  - rewrite (proj1 (proj2 (player_is_duck_typed (E := inert)
                             (with_player (PObject duck) scroll_scenario) scroll_env
                             (fresh_page 200))
                      duck eq_refl eq_refl eq_refl eq_refl eq_refl eq_refl)).
    vm_compute. reflexivity.
Defined.

(* ===================================================================== *)
(** ** The transitions of scroll and hover *)
(* ===================================================================== *)

(** X17. The scroll transitions besides [seek], after the [loop] write
    that opens every resolved tick.  [loop]: [playSegments(frames, true)]
    when the player is paused, nothing when it plays.  [play]:
    [resetSegments()] when the player is paused, then [play()] in either
    case.  [stop]: [goToAndStop(frames[0])] then [stop()], and nothing
    when the action has no frames.  Any other type: nothing.  A call that
    throws ends the tick. *)
Theorem scroll_transitions {E : Engine} (this : LottieInteractivity) (env : Env) (pg : Page)
    (s : Sample) :
  player this = PAnimationItem ->
  boundingBoxUtils this env = Normal (Some s) ->
  let a := action s in
  let it := Player.with_loop true (item pg) in
  let added k :=
    trace (snd (scrollHandler this env pg)) = trace pg ++ Player.set_loop true :: k in
  (Action.type a = "loop" ->
   added (if Player.isPaused (item pg)
          then [Player.playSegments (Action.frames a) (Some true)] else [])) /\
  (Action.type a = "play" ->
   added (if Player.isPaused (item pg)
          then followed Player.resetSegments it [Player.play] else [Player.play])) /\
  (Action.type a = "stop" ->
   added (match Action.frames a with
          | Some fs => followed (Player.goToAndStop (nth_error fs 0) None) it [Player.stop]
          | None => []
          end)) /\
  (Action.type a <> "seek" -> Action.type a <> "loop" ->
   Action.type a <> "play" -> Action.type a <> "stop" ->
   added []).
Proof.
  intros Hp Hs a it added. subst a it added. cbv beta.
  unfold scrollHandler. rewrite try_catch_page. unfold scrollHandler_body.
  rewrite (destructure_sample _ _ _ _ _ Hs). rewrite Hp.
  destruct pg as [[paused lp tf w] tr].
  unfold bind, frames_0, player_call, engine_call, followed. simpl.
  repeat split.
  - intros ->. simpl. destruct paused; simpl; [| rewrite <- ?app_assoc, ?app_nil_r; reflexivity].
    destruct (react _ _) as [r it']. simpl. rewrite <- ?app_assoc, ?app_nil_r; reflexivity.
  - intros ->. simpl. destruct paused; simpl.
    + destruct (react Player.resetSegments _) as [[[] | e] it']; simpl.
      * destruct (react Player.play it') as [r it'']. simpl. rewrite <- ?app_assoc, ?app_nil_r; reflexivity.
      * rewrite <- ?app_assoc, ?app_nil_r; reflexivity.
    + destruct (react Player.play _) as [r it']. simpl. rewrite <- ?app_assoc, ?app_nil_r; reflexivity.
  - intros ->. simpl. destruct (Action.frames (action s)) as [fs |]; simpl.
    + destruct (react (Player.goToAndStop _ _) _) as [[[] | e] it']; simpl.
      * destruct (react Player.stop it') as [r it'']. simpl. rewrite <- ?app_assoc, ?app_nil_r; reflexivity.
      * rewrite <- ?app_assoc, ?app_nil_r; reflexivity.
    + reflexivity.
  - intros H1 H2 H3 H4.
    apply String.eqb_neq in H1, H2, H3, H4. now rewrite H1, H2, H3, H4.
Qed.

(** A [play] action: on the paused player the tick resets the segments
    and plays, on the playing one it only calls [play()]. *)
Lemma scroll_transitions_witness :
  trace (snd (scrollHandler (E := inert) (instance_of "scroll" [play_action] RUndefined)
                scroll_env (fresh_page 200))) =
    [Player.set_loop true; Player.resetSegments; Player.play] /\
  trace (snd (scrollHandler (E := inert) (instance_of "scroll" [play_action] RUndefined)
                scroll_env playing_page)) =
    [Player.set_loop true; Player.play].
Proof.
  split.
  - exact (proj1 (proj2 (scroll_transitions (E := inert)
                           (instance_of "scroll" [play_action] RUndefined) scroll_env
                           (fresh_page 200)
                           {| s_height := 400; s_bottom := 500; currentPercent := 700 / 1200;
                              action := play_action |} eq_refl eq_refl)) eq_refl).
  - exact (proj1 (proj2 (scroll_transitions (E := inert)
                           (instance_of "scroll" [play_action] RUndefined) scroll_env
                           playing_page
                           {| s_height := 400; s_bottom := 500; currentPercent := 700 / 1200;
                              action := play_action |} eq_refl eq_refl)) eq_refl).
Defined.

(** X18. The enter transitions besides [stop].  [loop]:
    [playSegments(frames, true)] when the player is paused, nothing when
    it plays.  [play]: [playSegments(frames)], without the force flag,
    after [resetSegments()] when the player is paused.  A type that is
    none of [loop], [play] and [stop] (the [seek] of scroll mode among
    them): nothing.  The enter handler never writes [loop]. *)
Theorem hover_enter_transitions {E : Engine} (this : LottieInteractivity) (env : Env)
    (pg : Page) (s : Sample) :
  player this = PAnimationItem ->
  boundingBoxUtils this env = Normal (Some s) ->
  let a := action s in
  let added k := trace (snd (hoverStartHandler this env pg)) = trace pg ++ k in
  (Action.type a = "loop" ->
   added (if Player.isPaused (item pg)
          then [Player.playSegments (Action.frames a) (Some true)] else [])) /\
  (Action.type a = "play" ->
   added (if Player.isPaused (item pg)
          then followed Player.resetSegments (item pg)
                 [Player.playSegments (Action.frames a) None]
          else [Player.playSegments (Action.frames a) None])) /\
  (Action.type a <> "loop" -> Action.type a <> "play" -> Action.type a <> "stop" ->
   added []).
Proof.
  intros Hp Hs a added. subst a added. cbv beta.
  unfold hoverStartHandler. rewrite try_catch_page. unfold hoverStartHandler_body.
  rewrite (destructure_sample _ _ _ _ _ Hs). rewrite Hp.
  destruct pg as [[paused lp tf w] tr].
  unfold bind, frames_0, player_call, engine_call, followed. simpl.
  repeat split.
  - intros ->. simpl. destruct paused; simpl; [| rewrite <- ?app_assoc, ?app_nil_r; reflexivity].
    destruct (react _ _) as [r it']; simpl; rewrite <- ?app_assoc, ?app_nil_r; reflexivity.
  - intros ->. simpl. destruct paused; simpl.
    + destruct (react Player.resetSegments _) as [[[] | e] it']; simpl.
      * destruct (react _ it') as [r it'']. simpl. rewrite <- ?app_assoc, ?app_nil_r; reflexivity.
      * reflexivity.
    + destruct (react _ _) as [r it']; simpl; rewrite <- ?app_assoc, ?app_nil_r; reflexivity.
  - intros H1 H2 H3.
    apply String.eqb_neq in H1, H2, H3. rewrite H1, H2, H3. simpl. rewrite <- ?app_assoc, ?app_nil_r; reflexivity.
Qed.

(** Entering over a [play] action with the paused player, and over a
    [loop] action with the playing one. *)
Lemma hover_enter_transitions_witness :
  trace (snd (hoverStartHandler (E := inert) (instance_of "hover" [play_action] RUndefined)
                scroll_env (fresh_page 200))) =
    [Player.resetSegments; Player.playSegments (Some [0; 10]) None] /\
  trace (snd (hoverStartHandler (E := inert) (instance_of "hover" [loop_action] RUndefined)
                scroll_env playing_page)) = [].
Proof.
  split.
  - exact (proj1 (proj2 (hover_enter_transitions (E := inert)
                           (instance_of "hover" [play_action] RUndefined) scroll_env
                           (fresh_page 200)
                           {| s_height := 400; s_bottom := 500; currentPercent := 700 / 1200;
                              action := play_action |} eq_refl eq_refl)) eq_refl).
  - exact (proj1 (hover_enter_transitions (E := inert)
                    (instance_of "hover" [loop_action] RUndefined) scroll_env playing_page
                    {| s_height := 400; s_bottom := 500; currentPercent := 700 / 1200;
                       action := loop_action |} eq_refl eq_refl) eq_refl).
Defined.

(** X19. The leave transitions besides [stop]: over a [loop] or a [play]
    action leaving calls [stop()], whether the player is paused or not,
    and over an action of any type but [loop], [play] and [stop] it does
    nothing. *)
Theorem hover_leave_transitions {E : Engine} (this : LottieInteractivity) (env : Env)
    (pg : Page) (s : Sample) :
  player this = PAnimationItem ->
  boundingBoxUtils this env = Normal (Some s) ->
  (Action.type (action s) = "loop" \/ Action.type (action s) = "play" ->
   trace (snd (hoverEndHandler this env pg)) = trace pg ++ [Player.stop]) /\
  (Action.type (action s) <> "loop" -> Action.type (action s) <> "play" ->
   Action.type (action s) <> "stop" ->
   hoverEndHandler this env pg = (Normal tt, pg)).
Proof.
  intros Hp Hs. unfold hoverEndHandler, try_catch, hoverEndHandler_body.
  rewrite (destructure_sample _ _ _ _ _ Hs). rewrite Hp.
  unfold player_call, engine_call. split.
  - intros [-> | ->]; simpl; now destruct (react _ _) as [[[] | e] it'].
  - intros H1 H2 H3. apply String.eqb_neq in H1, H2, H3. now rewrite H1, H2, H3.
Qed.

(** Leaving over a [loop] action. *)
Lemma hover_leave_transitions_witness :
  trace (snd (hoverEndHandler (E := inert) (instance_of "hover" [loop_action] RUndefined)
                scroll_env playing_page)) = [Player.stop] /\
  hoverEndHandler (E := inert) (instance_of "hover" [seek_action] RUndefined)
    scroll_env playing_page = (Normal tt, playing_page).
Proof.
  split.
  - exact (proj1 (hover_leave_transitions (E := inert)
                    (instance_of "hover" [loop_action] RUndefined) scroll_env playing_page
                    {| s_height := 400; s_bottom := 500; currentPercent := 700 / 1200;
                       action := loop_action |} eq_refl eq_refl) (or_introl eq_refl)).
  - apply (proj2 (hover_leave_transitions (E := inert)
                    (instance_of "hover" [seek_action] RUndefined) scroll_env playing_page
                    {| s_height := 400; s_bottom := 500; currentPercent := 700 / 1200;
                       action := seek_action |} eq_refl eq_refl)); discriminate.
Defined.

(* ===================================================================== *)
(** ** The pointer handler *)
(* ===================================================================== *)

(** What the pointer handler tells the player on a sample: the one [seek]
    of the axis of the action, whatever the page. *)
Lemma pointer_trace {E : Engine} (this : LottieInteractivity) (env : Env) (ev : MouseEvent)
    (s : Sample) (e : Element) (loaded : bool) :
  boundingBoxUtils this env = Normal (Some s) ->
  playerInstance this = RElement e ->
  component e = Some loaded ->
  Action.type (action s) = "seek-yaxis" \/ Action.type (action s) = "seek-xaxis" ->
  exists p, forall pg,
    trace (snd (mousePositionHandler this env (Some ev) pg)) = trace pg ++ [Player.seek p].
Proof.
  intros Hs Hi Hc Ht.
  destruct (relative_pointer env (pageX ev, pageY ev)) as [x y] eqn:R.
  exists (percentageString
            (JS.Math_ceil (if Action.type (action s) =? "seek-yaxis"
                           then y / s_height s * 100 else x / s_bottom s * 100))).
  intro pg. unfold mousePositionHandler. rewrite try_catch_page.
  unfold mousePositionHandler_body. rewrite (destructure_sample _ _ _ _ _ Hs).
  unfold bind, pointer, ret. rewrite R, Hi.
  destruct Ht as [-> | ->]; cbn; rewrite Hc; unfold engine_call.
  all: now destruct (react _ (item pg)) as [r it].
Qed.

(** X20. The same pointer move seeks to the same place: two invocations
    of the pointer handler with one event and one geometry make the same
    [seek] call twice, whatever the engine did with the first. *)
Theorem pointer_move_repeats {E : Engine} (this : LottieInteractivity) (env : Env)
    (ev : MouseEvent) (pg : Page) (s : Sample) (e : Element) (loaded : bool) :
  boundingBoxUtils this env = Normal (Some s) ->
  playerInstance this = RElement e ->
  component e = Some loaded ->
  Action.type (action s) = "seek-yaxis" \/ Action.type (action s) = "seek-xaxis" ->
  exists p,
    trace (snd (mousePositionHandler this env (Some ev) pg)) = trace pg ++ [Player.seek p] /\
    trace (snd (mousePositionHandler this env (Some ev)
                  (snd (mousePositionHandler this env (Some ev) pg)))) =
      trace pg ++ [Player.seek p; Player.seek p].
Proof.
  intros Hs Hi Hc Ht.
  destruct (pointer_trace this env ev s e loaded Hs Hi Hc Ht) as [p Hp].
  exists p. split; [apply Hp |]. rewrite Hp, Hp. now rewrite <- app_assoc.
Qed.

(** The pointer scenario twice, on the engine that changes the item. *)
Lemma pointer_move_repeats_witness :
  trace (snd (mousePositionHandler (E := segmenting) pointer_scenario pointer_env
                (Some pointer_event)
                (snd (mousePositionHandler (E := segmenting) pointer_scenario pointer_env
                        (Some pointer_event) (fresh_page 200))))) =
    [Player.seek "25%"; Player.seek "25%"].
Proof.
  destruct (pointer_move_repeats (E := segmenting) pointer_scenario pointer_env pointer_event
              (fresh_page 200)
              {| s_height := 200; s_bottom := 300; currentPercent := 700 / 1000;
                 action := yaxis_action |}
              lottie_player true eq_refl eq_refl eq_refl (or_introl eq_refl)) as (p & H1 & H2).
  rewrite H2. vm_compute in H1. injection H1 as <-. reflexivity.
Defined.

(** X21. The pointer handler does one thing at most: whatever the
    instance, the page and the event, it adds nothing to the trace or one
    [seek]; it calls no method of [this.player] and never writes [loop].
    When it adds nothing the page is as it was, and that is the case for
    every resolved action whose type is neither [seek-yaxis] nor
    [seek-xaxis]. *)
Theorem pointer_only_seeks {E : Engine} (this : LottieInteractivity) (env : Env)
    (mouseEvent : option MouseEvent) (pg : Page) :
  (mousePositionHandler this env mouseEvent pg = (Normal tt, pg) \/
   exists p, trace (snd (mousePositionHandler this env mouseEvent pg)) =
             trace pg ++ [Player.seek p]) /\
  (forall s,
     boundingBoxUtils this env = Normal (Some s) ->
     Action.type (action s) <> "seek-yaxis" -> Action.type (action s) <> "seek-xaxis" ->
     mousePositionHandler this env mouseEvent pg = (Normal tt, pg)).
Proof.
  unfold mousePositionHandler, try_catch, mousePositionHandler_body, bind.
  split.
  - destruct (boundingBoxUtils this env) as [[s |] | e]; simpl; auto.
    unfold pointer.
    destruct mouseEvent as [ev |]; [| destruct (window_event env) as [[x y] |]]; simpl; auto.
    all: destruct (relative_pointer env _) as [xpos ypos].
    all: unfold playerInstance_seek, engine_call.
    all: destruct (Action.type (action s) =? "seek-yaxis");
      [| destruct (Action.type (action s) =? "seek-xaxis")]; simpl; auto.
    all: destruct (playerInstance this) as [| | el]; simpl; auto.
    all: destruct (component el); simpl; auto.
    all: destruct (react _ (item pg)) as [[[] | e] it]; simpl; eauto.
  - intros s Hs H1 H2. rewrite Hs. simpl.
    apply String.eqb_neq in H1, H2. unfold pointer.
    destruct mouseEvent as [ev |]; [| destruct (window_event env) as [[x y] |]]; simpl; auto.
    all: destruct (relative_pointer env _) as [xpos ypos].
    all: now rewrite H1, H2.
Qed.

(** In pointer mode an action of type [seek] is resolved and ignored. *)
Lemma pointer_only_seeks_witness :
  mousePositionHandler (E := inert)
    (instance_of "mouseposition" [seek_action] (RElement lottie_player))
    scroll_env (Some pointer_event) (fresh_page 200) = (Normal tt, fresh_page 200).
Proof.
  apply (proj2 (pointer_only_seeks (E := inert)
                  (instance_of "mouseposition" [seek_action] (RElement lottie_player))
                  scroll_env (Some pointer_event) (fresh_page 200))
           {| s_height := 400; s_bottom := 500; currentPercent := 700 / 1200;
              action := seek_action |} eq_refl); discriminate.
Defined.

(** X22. Without an event argument the pointer handler takes the pointer
    from [window.event] and the scroll offsets of the body, less 2: it
    does what it does on an event at [x + scrollLeft - 2] and
    [y + scrollTop - 2], and nothing when there is no [window.event]. *)
Theorem pointer_without_event {E : Engine} (this : LottieInteractivity) (env : Env) (pg : Page) :
  (window_event env = None ->
   mousePositionHandler this env None pg = (Normal tt, pg)) /\
  (forall x y,
     window_event env = Some (x, y) ->
     mousePositionHandler this env None pg =
     mousePositionHandler this env
       (Some {| pageX := x + body_scrollLeft env - 2; pageY := y + body_scrollTop env - 2 |}) pg).
Proof.
  unfold mousePositionHandler, try_catch, mousePositionHandler_body, bind, pointer.
  split.
  - intros ->. now destruct (boundingBoxUtils this env) as [[s |] | e].
  - intros x y ->. reflexivity.
Qed.

(** The pointer scenario read from [window.event] at (102, 142) with the
    body scrolled by 10 each way: the pointer is at (110, 150). *)
Lemma pointer_without_event_witness :
  trace (snd (mousePositionHandler (E := inert) pointer_scenario legacy_env None
                (fresh_page 200))) = [Player.seek "25%"].
Proof.
  rewrite (proj2 (pointer_without_event (E := inert) pointer_scenario legacy_env (fresh_page 200))
             102 142 eq_refl).
  reflexivity.
Defined.
